(** * NexusCloud Manager: unified remote file operations

    A shallow embedding of the Express handlers of the backend
    ([/api/fs/list], [/api/fs/sftp/list], [/api/fs/sftp/upload],
    [/api/fs/s3/rename], [/api/fs/s3/copy], [/api/fs/transfer], the
    credential routes and the user routes) and of the transfer part of the
    React front end ([TransferContext], [handleConfirmAction]), with the
    properties of the specification stated over them.

    The remote servers, the local scratch directory and the credential file
    are an explicit [World]; every call into ssh2, basic-ftp or the AWS SDK is
    a primitive of a small state-and-exception monad whose outcome is taken
    from a fault plan carried by the world, so that a statement quantified over
    all worlds covers every way the environment may fail.

    A handler is one run from its request to its answer.  A statement about
    what a handler leaves behind speaks of a handler with no other request
    at work on the same files in between; two transfers that interleave are
    composed from the steps of the handler where a statement is about them
    (C8). *)

From stdpp Require Import gmap strings list pretty sorting.
From Stdlib Require Import Ascii String QArith Qminmax.

Open Scope string_scope.
Open Scope Z_scope.

(** ** JavaScript helpers *)

Module JS.

(** [!s] on an optional string: [undefined] and [''] are falsy. *)
Definition truthy_str (s : option string) : bool :=
  match s with
  | Some s => negb (String.eqb s "")
  | None => false
  end.

(** [a || b] on optional numbers: [undefined] and [0] are falsy. *)
Definition or_num (a b : option Z) : option Z :=
  match a with
  | Some x => if Z.eqb x 0 then b else Some x
  | None => b
  end.

(** [a || b || d] ending in a numeric literal. *)
Definition or_default (a : option Z) (d : Z) : Z :=
  match or_num a None with
  | Some x => x
  | None => d
  end.

(** [s || ''] on an optional string. *)
Definition or_empty (s : option string) : string :=
  match s with
  | Some s => s
  | None => ""
  end.

(** A template literal prints [undefined] for a missing value. *)
Definition show (s : option string) : string :=
  match s with
  | Some s => s
  | None => "undefined"
  end.

Definition lower_ascii (c : ascii) : ascii :=
  let n := N_of_ascii c in
  if (N.leb 65 n && N.leb n 90)%bool then ascii_of_N (n + 32) else c.

(** [String.prototype.toLowerCase] on the ASCII letters, for the kind of a
    connection: the handlers compare the result with ['sftp'], ['ftp'] and
    ['s3'], and the text of a kind that lower-cases to one of these has ASCII
    letters only.  Where the explorer lower-cases file names, the function
    is a parameter ([FileExplorer.handleConfirmAction]); this one stands in
    for it on the ASCII names of the scenarios. *)
Fixpoint toLowerCase (s : string) : string :=
  match s with
  | EmptyString => EmptyString
  | String c r => String (lower_ascii c) (toLowerCase r)
  end.

(** [s.startsWith(p)]. *)
Definition startsWith (p s : string) : bool := String.prefix p s.

(** [s.substring(1)]. *)
Definition substring1 (s : string) : string :=
  match s with
  | EmptyString => EmptyString
  | String _ r => r
  end.

(** [path.join(dir, name)] for a directory without trailing separator and
    a plain file name (no [.], [..] or separator to normalise). *)
Definition path_join (dir name : string) : string :=
  dir +:+ "/" +:+ name.

End JS.

(** ** The environment of the handlers *)

Module Env.

(** A remote store the backend can reach.  SFTP and FTP servers are named
    by host and port, an S3 bucket by endpoint host and bucket name. *)
Inductive Endpoint :=
| SftpServer (host : option string) (port : Z)
| FtpServer (host : option string) (port : Z)
| S3Bucket (host : option string) (bucket : option string).

#[global] Instance Endpoint_eq_dec : EqDecision Endpoint.
Proof. solve_decision. Defined.

#[global] Instance Endpoint_countable : Countable Endpoint.
Proof.
  refine (inj_countable'
    (fun e => match e with
              | SftpServer h p => inl (h, p)
              | FtpServer h p => inr (inl (h, p))
              | S3Bucket h b => inr (inr (h, b))
              end)
    (fun x => match x with
              | inl (h, p) => SftpServer h p
              | inr (inl (h, p)) => FtpServer h p
              | inr (inr (h, b)) => S3Bucket h b
              end) _).
  by intros [].
Defined.

(** A file on a remote store: the store and the path (or object key). *)
Definition Loc : Type := Endpoint * string.

(** The parameters one transport session is opened with. *)
Record Session := {
  endpoint : Endpoint;
  user : option string;
  pass : option string;
  secure : bool;
  region : option string
}.

(** What [getConnectionCredentials] returns when it finds an entry. *)
Record Credentials := {
  username : string;
  password : string;
  port : option Z;
  credSecure : option bool
}.

(** The calls into the protocol libraries, with what they reported. *)
Inductive Call :=
| CConnect (s : Session) (ok : bool)
| CGet (s : Session) (path tmp : string) (ok : bool)
| CPut (s : Session) (tmp path : string) (ok : bool)
| CCopy (s : Session) (src dst : string) (ok : bool)
| CDelete (s : Session) (path : string) (ok : bool).

(** What the environment does to the next call: let it through, or make it
    fail with a message, possibly leaving a partial file where the call was
    writing.  A call that is let through has its effect, and a call that
    fails has none beyond the partial file; a call that never returns is not
    part of the model, so the statements speak of the runs in which every
    call returns or throws.

    [Reported] is the refusal that comes inside a normal answer: the
    [Errors] of [DeleteObjectsCommand], which names the key as not deleted
    in a response the SDK returns without throwing.  The other calls have
    no such answer; there a refusal is thrown. *)
Inductive Fault :=
| NoFault
| Fail (msg : string) (leftover : option (list Byte.byte))
| Reported (code : string).

Record World := {
  remote : gmap Loc (list Byte.byte);
  localfs : gmap string (list Byte.byte);
  credentials : gmap string Credentials;
  calls : list Call;
  plan : list Fault
}.

Definition set_remote (r : gmap Loc (list Byte.byte)) (w : World) : World :=
  {| remote := r; localfs := localfs w; credentials := credentials w;
     calls := calls w; plan := plan w |}.

Definition set_localfs (l : gmap string (list Byte.byte)) (w : World) : World :=
  {| remote := remote w; localfs := l; credentials := credentials w;
     calls := calls w; plan := plan w |}.

Definition set_calls (c : list Call) (w : World) : World :=
  {| remote := remote w; localfs := localfs w; credentials := credentials w;
     calls := c; plan := plan w |}.

Definition set_plan (p : list Fault) (w : World) : World :=
  {| remote := remote w; localfs := localfs w; credentials := credentials w;
     calls := calls w; plan := p |}.

(** *** State and exceptions *)

Inductive Res (A : Type) :=
| Val (a : A)
| Throw (msg : string).
Arguments Val {A} a.
Arguments Throw {A} msg.

Definition M (A : Type) : Type := World -> Res A * World.

Definition ret {A} (a : A) : M A := fun w => (Val a, w).

Definition throw {A} (msg : string) : M A := fun w => (Throw msg, w).

Definition bind {A B} (m : M A) (k : A -> M B) : M B :=
  fun w =>
    match m w with
    | (Val a, w') => k a w'
    | (Throw msg, w') => (Throw msg, w')
    end.

(** [try { body } catch (error) { handler(error.message) }]. *)
Definition try_catch {A} (body : M A) (handler : string -> M A) : M A :=
  fun w =>
    match body w with
    | (Val a, w') => (Val a, w')
    | (Throw msg, w') => handler msg w'
    end.

Declare Scope js_scope.
Delimit Scope js_scope with js.
Notation "x <- c ;; k" := (bind c (fun x => k))
  (at level 100, c at next level, right associativity) : js_scope.
Notation "c ;; k" := (bind c (fun _ => k))
  (at level 100, right associativity) : js_scope.

Definition log (c : Call) : M unit :=
  fun w => (Val tt, set_calls (calls w ++ [c]) w).

Definition next_fault : M Fault :=
  fun w => (Val (hd NoFault (plan w)), set_plan (tl (plan w)) w).

(** *** Credential storage: [getConnectionCredentials] *)

(** The credential file as a map from [`${userId}:${connectionId}`] to the
    decrypted entry; an entry whose user name or password decrypts to the
    empty string is treated as missing. *)
Definition getConnectionCredentials (connectionId userId : string)
    (store : gmap string Credentials) : option Credentials :=
  match store !! (userId +:+ ":" +:+ connectionId) with
  | None => None
  | Some stored =>
      if (String.eqb (username stored) "" || String.eqb (password stored) "")%bool
      then None
      else Some stored
  end.

(** *** The protocol libraries *)

(** [connectSFTP(...)], [ftpClient.access(...)]: open a session. *)
Definition connect (s : Session) : M unit :=
  (f <- next_fault ;;
   match f with
   | NoFault => log (CConnect s true)
   | Fail msg _ | Reported msg => (log (CConnect s false) ;; throw msg)
   end)%js.

Definition write_local (tmp : string) (data : list Byte.byte) : M unit :=
  fun w => (Val tt, set_localfs (<[tmp := data]> (localfs w)) w).

Definition write_remote (l : Loc) (data : list Byte.byte) : M unit :=
  fun w => (Val tt, set_remote (<[l := data]> (remote w)) w).

Definition leave {A} (write : A -> M unit) (leftover : option A) : M unit :=
  match leftover with
  | Some part => write part
  | None => ret tt
  end.

(** [sftp.fastGet], [ftpClient.downloadTo], [GetObjectCommand] piped into a
    write stream: copy a remote file to a local path. *)
Definition download (s : Session) (path tmp : string) : M unit :=
  (f <- next_fault ;;
   match f with
   | Fail msg part =>
       (leave (write_local tmp) part ;; log (CGet s path tmp false) ;; throw msg)
   | Reported msg => (log (CGet s path tmp false) ;; throw msg)
   | NoFault =>
       fun w =>
         match remote w !! (endpoint s, path) with
         | Some data => (write_local tmp data ;; log (CGet s path tmp true)) w
         | None => (log (CGet s path tmp false) ;; throw "No such file") w
         end
   end)%js.

(** [sftp.fastPut], [ftpClient.uploadFrom], [readFileSync] then
    [PutObjectCommand]: copy a local file to a remote path. *)
Definition upload (s : Session) (tmp path : string) : M unit :=
  (fun w =>
     match localfs w !! tmp with
     | None => (log (CPut s tmp path false) ;;
                throw ("ENOENT: no such file or directory, open '" +:+ tmp +:+ "'")) w
     | Some data =>
         (f <- next_fault ;;
          match f with
          | Fail msg part =>
              (leave (write_remote (endpoint s, path)) part ;;
               log (CPut s tmp path false) ;; throw msg)
          | Reported msg => (log (CPut s tmp path false) ;; throw msg)
          | NoFault =>
              (write_remote (endpoint s, path) data ;; log (CPut s tmp path true))
          end) w
     end)%js.

(** Whether an endpoint is a bucket. *)
Definition is_bucket (e : Endpoint) : bool :=
  match e with
  | S3Bucket _ _ => true
  | _ => false
  end.

(** [sftp.unlink], [ftpClient.remove], [DeleteObjectsCommand].  The flag of
    the logged call is what the call reported about the file; a
    [DeleteObjectsCommand] that reports the key as not deleted returns
    normally, and no handler reads its answer. *)
Definition delete_remote (s : Session) (path : string) : M unit :=
  (f <- next_fault ;;
   match f with
   | Fail msg _ => (log (CDelete s path false) ;; throw msg)
   | Reported msg =>
       if is_bucket (endpoint s) then log (CDelete s path false)
       else (log (CDelete s path false) ;; throw msg)
   | NoFault =>
       fun w => log (CDelete s path true)
                  (set_remote (delete (endpoint s, path) (remote w)) w)
   end)%js.

(** [CopyObjectCommand] inside one bucket. *)
Definition copy_object (s : Session) (src dst : string) : M unit :=
  (f <- next_fault ;;
   match f with
   | Fail msg _ | Reported msg => (log (CCopy s src dst false) ;; throw msg)
   | NoFault =>
       fun w =>
         match remote w !! (endpoint s, src) with
         | Some data =>
             (write_remote (endpoint s, dst) data ;; log (CCopy s src dst true)) w
         | None => (log (CCopy s src dst false) ;;
                    throw "The specified key does not exist.") w
         end
   end)%js.

(** [createS3Client(host, accessKeyId, secretAccessKey, region)], together
    with the [Bucket] of the commands sent through the client.  Creating
    the client opens no connection. *)
Definition createS3Client (host accessKeyId secretAccessKey region bucket
    : option string) : Session :=
  {| endpoint := S3Bucket host bucket;
     user := accessKeyId;
     pass := secretAccessKey;
     secure := false;
     region := Some (if JS.truthy_str region
                     then JS.or_empty region else "us-east-1") |}.

(** [fs.existsSync(p)] and [fs.unlinkSync(p)]. *)
Definition existsSync (p : string) : M bool :=
  fun w => (Val (bool_decide (is_Some (localfs w !! p))), w).

Definition unlinkSync (p : string) : M unit :=
  fun w => (Val tt, set_localfs (delete p (localfs w)) w).

(** The calls a run from [w] to [w'] added to the log. *)
Definition issued (w w' : World) : list Call :=
  drop (List.length (calls w)) (calls w').

(** What a handler answers: [res.json(...)] or [res.status(n).json({error})]. *)
Inductive Response :=
| Success (message : string)
| Error (status : Z) (error : string).

End Env.

(** ** The cross-server transfer: [app.post('/api/fs/transfer')] *)

Module Transfer.
Import Env.
Open Scope js_scope.

(** The connection objects of the request body. *)
Record Connection := {
  connId : string;
  connType : option string;
  connHost : option string;
  connPort : option Z;
  connBucket : option string;
  connRegion : option string
}.

(** [req.body]. *)
Record Request := {
  srcConnection : Connection;
  dstConnection : Connection;
  srcPath : string;
  dstPath : string;
  fileName : string;
  isMove : bool;
  isDir : bool
}.

(** [path.join(__dirname, `temp_${Date.now()}_${fileName}`)]. *)
Definition tempFile (dirname : string) (now : Z) (fileName : string) : string :=
  JS.path_join dirname ("temp_" +:+ pretty now +:+ "_" +:+ fileName).

(** The arguments of [connectSFTP(host, port, username, password)]. *)
Definition sftp_session (c : Connection) (creds : option Credentials) : Session :=
  {| endpoint :=
       SftpServer (connHost c)
         (JS.or_default (JS.or_num (creds ≫= port) (connPort c)) 22);
     user := username <$> creds;
     pass := password <$> creds;
     secure := false;
     region := None |}.

(** The argument of [ftpClient.access({...})]. *)
Definition ftp_session (c : Connection) (creds : option Credentials) : Session :=
  {| endpoint :=
       FtpServer (connHost c)
         (JS.or_default (JS.or_num (creds ≫= port) (connPort c)) 21);
     user := username <$> creds;
     pass := password <$> creds;
     secure := match creds ≫= credSecure with Some true => true | _ => false end;
     region := None |}.

(** The S3 client of a connection and the bucket its commands name. *)
Definition s3_session (c : Connection) (creds : option Credentials) : Session :=
  createS3Client (connHost c) (username <$> creds) (password <$> creds)
    (connRegion c) (connBucket c).

(** [p.startsWith('/') ? p.substring(1) : p]. *)
Definition s3_key (p : string) : string :=
  if JS.startsWith "/" p then JS.substring1 p else p.

(** [(connection.type || '').toLowerCase()]. *)
Definition kind (c : Connection) : string :=
  JS.toLowerCase (JS.or_empty (connType c)).

Definition readCredentials (c : Connection) (userId : string)
    : M (option Credentials) :=
  fun w => (Val (getConnectionCredentials (connId c) userId (credentials w)), w).

(** Step 1: download from source. *)
Definition step1 (src : Connection) (srcCreds : option Credentials)
    (srcType srcPath tmp : string) : M unit :=
  if String.eqb srcType "sftp" then
    (connect (sftp_session src srcCreds) ;;
     download (sftp_session src srcCreds) srcPath tmp)
  else if String.eqb srcType "ftp" then
    (connect (ftp_session src srcCreds) ;;
     download (ftp_session src srcCreds) srcPath tmp)
  else if String.eqb srcType "s3" then
    download (s3_session src srcCreds) (s3_key srcPath) tmp
  else
    throw ("Tipo de conexão origem não suportado: " +:+ JS.show (connType src)).

(** Step 2: upload to destination. *)
Definition step2 (dst : Connection) (dstCreds : option Credentials)
    (dstType tmp dstPath : string) : M unit :=
  if String.eqb dstType "sftp" then
    (connect (sftp_session dst dstCreds) ;;
     upload (sftp_session dst dstCreds) tmp dstPath)
  else if String.eqb dstType "ftp" then
    (connect (ftp_session dst dstCreds) ;;
     upload (ftp_session dst dstCreds) tmp dstPath)
  else if String.eqb dstType "s3" then
    upload (s3_session dst dstCreds) tmp (s3_key dstPath)
  else
    throw ("Tipo de conexão destino não suportado: " +:+ JS.show (connType dst)).

(** Step 3: if move, delete from source. *)
Definition step3 (src : Connection) (srcCreds : option Credentials)
    (srcType srcPath : string) : M unit :=
  if String.eqb srcType "sftp" then
    (connect (sftp_session src srcCreds) ;;
     delete_remote (sftp_session src srcCreds) srcPath)
  else if String.eqb srcType "ftp" then
    (connect (ftp_session src srcCreds) ;;
     delete_remote (ftp_session src srcCreds) srcPath)
  else if String.eqb srcType "s3" then
    delete_remote (s3_session src srcCreds) (s3_key srcPath)
  else
    ret tt.

(** [if (isMove) { ... }] around step 3. *)
Definition step3' (req : Request) (srcCreds : option Credentials) : M unit :=
  if isMove req
  then step3 (srcConnection req) srcCreds (kind (srcConnection req)) (srcPath req)
  else ret tt.

(** [if (fs.existsSync(tempFile)) fs.unlinkSync(tempFile)]. *)
Definition cleanup (tmp : string) : M unit :=
  (e <- existsSync tmp ;;
   if e then unlinkSync tmp else ret tt).

(** The handler; [dirname] is [__dirname], [now] is what [Date.now()]
    returns and [userId] is [req.user.id]. *)
Definition transfer (dirname : string) (now : Z) (userId : string)
    (req : Request) : M Response :=
  if isDir req then
    ret (Error 400 "Transferência de pastas entre servidores não é suportada ainda")
  else
    let tmp := tempFile dirname now (fileName req) in
    try_catch
      (srcCreds <- readCredentials (srcConnection req) userId ;;
       let srcType := kind (srcConnection req) in
       step1 (srcConnection req) srcCreds srcType (srcPath req) tmp ;;
       dstCreds <- readCredentials (dstConnection req) userId ;;
       let dstType := kind (dstConnection req) in
       step2 (dstConnection req) dstCreds dstType tmp (dstPath req) ;;
       step3' req srcCreds ;;
       cleanup tmp ;;
       ret (Success (if isMove req then "Arquivo movido com sucesso"
                     else "Arquivo copiado com sucesso")))
      (fun message =>
         cleanup tmp ;;
         ret (Error 500 message)).

(** *** Vocabulary of the statements *)

(** Whether the handler has a branch for the kind of a connection. *)
Definition supported (c : Connection) : bool :=
  (String.eqb (kind c) "sftp" || String.eqb (kind c) "ftp"
   || String.eqb (kind c) "s3")%bool.

(** The remote file a connection and a path of the request address. *)
Definition location (c : Connection) (creds : option Credentials)
    (path : string) : option Loc :=
  if String.eqb (kind c) "sftp" then
    Some (endpoint (sftp_session c creds), path)
  else if String.eqb (kind c) "ftp" then
    Some (endpoint (ftp_session c creds), path)
  else if String.eqb (kind c) "s3" then
    Some (endpoint (s3_session c creds), s3_key path)
  else None.

(** The source and the destination file of a request in a world. *)
Definition source (userId : string) (req : Request) (w : World) : option Loc :=
  location (srcConnection req)
    (getConnectionCredentials (connId (srcConnection req)) userId (credentials w))
    (srcPath req).

Definition destination (userId : string) (req : Request) (w : World) : option Loc :=
  location (dstConnection req)
    (getConnectionCredentials (connId (dstConnection req)) userId (credentials w))
    (dstPath req).

Definition is_put_ok (c : Call) : bool :=
  match c with CPut _ _ _ true => true | _ => false end.

Definition is_put (c : Call) : bool :=
  match c with CPut _ _ _ _ => true | _ => false end.

Definition is_delete (c : Call) : bool :=
  match c with CDelete _ _ _ => true | _ => false end.

Definition is_delete_ok (c : Call) : bool :=
  match c with CDelete _ _ true => true | _ => false end.

Definition is_get_ok (c : Call) : bool :=
  match c with CGet _ _ _ true => true | _ => false end.

(** The calls of step 1, of step 2 and of step 3. *)
Definition is_fetch_call (c : Call) : bool :=
  match c with CConnect _ _ | CGet _ _ _ _ => true | _ => false end.

Definition is_place_call (c : Call) : bool :=
  match c with CConnect _ _ | CPut _ _ _ _ => true | _ => false end.

(** A call of the delete of the file [l]: the session opened on its server
    or the delete itself. *)
Definition retires (l : Loc) (c : Call) : bool :=
  match c with
  | CConnect s _ => bool_decide (endpoint s = l.1)
  | CDelete s p _ => bool_decide ((endpoint s, p) = l)
  | _ => false
  end.

(** Phase 2 reported success: some upload call returned normally. *)
Definition upload_ok (cs : list Call) : bool := existsb is_put_ok cs.

(** The calls made once the upload has reported success: phase 3. *)
Fixpoint after_upload (cs : list Call) : list Call :=
  match cs with
  | [] => []
  | c :: rest => if is_put_ok c then rest else after_upload rest
  end.

(** The world once the staging file is gone. *)
Definition cleaned (tmp : string) (w : World) : World :=
  set_localfs (delete tmp (localfs w)) w.

End Transfer.

(** ** Rename on S3: [app.post('/api/fs/s3/rename')] *)

Module S3Rename.
Import Env.
Open Scope js_scope.

(** [req.body]. *)
Record Request := {
  host : option string;
  username : option string;
  password : option string;
  bucket : option string;
  oldKey : option string;
  newKey : option string;
  region : option string;
  connectionId : option string
}.

(** The access key and the secret the client is created with. *)
Definition resolve (userId : string) (req : Request)
    (store : gmap string Credentials) : option string * option string :=
  if (JS.truthy_str (connectionId req)
      && (negb (JS.truthy_str (username req))
          || negb (JS.truthy_str (password req))))%bool
  then
    match getConnectionCredentials (JS.or_empty (connectionId req)) userId store with
    | Some stored => (Some (Env.username stored), Some (Env.password stored))
    | None => (username req, password req)
    end
  else (username req, password req).

Definition rename (userId : string) (req : Request) : M Response :=
  fun w =>
    let '(accessKeyId, secretAccessKey) := resolve userId req (credentials w) in
    if (negb (JS.truthy_str accessKeyId) || negb (JS.truthy_str secretAccessKey)
        || negb (JS.truthy_str (bucket req)) || negb (JS.truthy_str (oldKey req))
        || negb (JS.truthy_str (newKey req)))%bool
    then (Val (Error 400 "Credenciais, bucket e keys são obrigatórios"), w)
    else
      try_catch
        (let client :=
           createS3Client (host req) accessKeyId secretAccessKey (region req)
             (bucket req) in
         (* Copy to new location *)
         copy_object client (JS.or_empty (oldKey req)) (JS.or_empty (newKey req)) ;;
         (* Delete old object *)
         delete_remote client (JS.or_empty (oldKey req)) ;;
         ret (Success "Arquivo renomeado com sucesso"))
        (fun message => ret (Error 500 message)) w.

End S3Rename.

(** ** Credentials of the SFTP handlers *)

Module Sftp.
Import Env.

(** The fields of [req.body] the two handlers look at, and the user name
    and password a caller may put into either request. *)
Record Request := {
  host : option string;
  port : option Z;
  username : option string;
  password : option string;
  connectionId : option string;
  remotePath : option string;
  file : option string
}.

(** The argument of [client.connect({...})] or of [connectSFTP(...)]. *)
Record ConnectConfig := {
  cfgHost : option string;
  cfgPort : Z;
  cfgUsername : option string;
  cfgPassword : option string
}.

Inductive Outcome :=
| Rejected (status : Z) (error : string)
| Connects (cfg : ConnectConfig).

(** [app.post('/api/fs/sftp/list')] up to [client.connect]. *)
Definition list_connect (userId : string) (req : Request)
    (store : gmap string Credentials) : Outcome :=
  let '(finalUsername, finalPassword, finalPort) :=
    if (JS.truthy_str (connectionId req)
        && (negb (JS.truthy_str (username req))
            || negb (JS.truthy_str (password req))))%bool
    then
      match getConnectionCredentials (JS.or_empty (connectionId req)) userId store with
      | Some stored =>
          (Some (Env.username stored), Some (Env.password stored),
           JS.or_num (Env.port stored) (port req))
      | None => (username req, password req, port req)
      end
    else (username req, password req, port req) in
  if (negb (JS.truthy_str (host req)) || negb (JS.truthy_str finalUsername)
      || negb (JS.truthy_str finalPassword))%bool
  then Rejected 400 "Host e credenciais são obrigatórios"
  else Connects {| cfgHost := host req;
                   cfgPort := JS.or_default finalPort 22;
                   cfgUsername := finalUsername;
                   cfgPassword := finalPassword |}.

(** [app.post('/api/fs/sftp/upload')] up to [connectSFTP]; the handler
    destructures only [host], [port], [connectionId] and [remotePath]. *)
Definition upload_connect (userId : string) (req : Request)
    (store : gmap string Credentials) : Outcome :=
  if negb (JS.truthy_str (file req))
  then Rejected 400 "Nenhum arquivo enviado"
  else
    let '(finalUsername, finalPassword, finalPort) :=
      if JS.truthy_str (connectionId req) then
        match getConnectionCredentials (JS.or_empty (connectionId req)) userId store with
        | Some stored =>
            (Some (Env.username stored), Some (Env.password stored),
             Some (JS.or_default (JS.or_num (Env.port stored) (port req)) 22))
        | None => (None, None, None)
        end
      else (None, None, None) in
    if (negb (JS.truthy_str (host req)) || negb (JS.truthy_str finalUsername)
        || negb (JS.truthy_str finalPassword))%bool
    then Rejected 400 "Credenciais não encontradas"
    else Connects {| cfgHost := host req;
                     cfgPort := JS.or_default finalPort 22;
                     cfgUsername := finalUsername;
                     cfgPassword := finalPassword |}.

(** The same request carrying another user name and password. *)
Definition with_explicit (usr pw : option string) (req : Request) : Request :=
  {| host := host req; port := port req; username := usr; password := pw;
     connectionId := connectionId req; remotePath := remotePath req;
     file := file req |}.

(** The stored credentials of the connection the request names. *)
Definition stored_for (userId : string) (req : Request)
    (store : gmap string Credentials) : option Credentials :=
  getConnectionCredentials (JS.or_empty (connectionId req)) userId store.

End Sftp.

(** ** Directory listings *)

Module Listing.
Import Env.

Inductive ItemType := folder | file.

(** One entry of the JSON array a listing handler answers with. *)
Record FileItem := {
  id : string;
  name : string;
  type : ItemType;
  size : Z;
  modifiedAt : string;
  path : string;
  parentId : option string;
  mimeType : option string
}.

Definition is_folder (f : FileItem) : bool :=
  match type f with folder => true | file => false end.

(** [!f.name.startsWith('.')]. *)
Definition visible (f : FileItem) : bool :=
  negb (JS.startsWith "." (name f)).

Inductive ListResponse :=
| Items (items : list FileItem)
| Failed (status : Z) (error : string).

(** *** The local file system: [app.get('/api/fs/list')] *)

Record Stats := {
  isDirectory : bool;
  statSize : Z;
  mtime : string
}.

(** What [fs.statSync] and [fs.readdirSync] answer; [statSync] is [None]
    where the call throws (and [fs.existsSync] is false). *)
Record LocalFs := {
  statSync : string -> option Stats;
  readdirSync : string -> Res (list string)
}.

Definition local_item (fs : LocalFs) (targetPath name : string) : option FileItem :=
  let fullPath := JS.path_join targetPath name in
  match statSync fs fullPath with
  | Some itemStats =>
      Some {| id := fullPath;
              name := name;
              type := if isDirectory itemStats then folder else file;
              size := statSize itemStats;
              modifiedAt := mtime itemStats;
              path := fullPath;
              parentId := Some targetPath;
              mimeType := if isDirectory itemStats then None
                          else Some "application/octet-stream" |}
  | None => None
  end.

Definition fs_list (fs : LocalFs) (queryPath : option string) : ListResponse :=
  let targetPath := if JS.truthy_str queryPath then JS.or_empty queryPath else "." in
  match statSync fs targetPath with
  | None => Failed 404 "Caminho não encontrado"
  | Some stats =>
      if negb (isDirectory stats) then Failed 400 "O caminho não é um diretório"
      else
        match readdirSync fs targetPath with
        | Throw message => Failed 500 message
        | Val names => Items (omap (local_item fs targetPath) names)
        end
  end.

(** *** [Array.prototype.sort] with a comparison function

    The sort of ECMAScript is stable; for a consistent comparison function
    its result is the one of this insertion sort. *)
Section Sort.
Context {A : Type} (compareFn : A -> A -> Z).

Fixpoint insert (x : A) (sorted : list A) : list A :=
  match sorted with
  | [] => [x]
  | y :: rest =>
      if Z.leb (compareFn x y) 0 then x :: y :: rest
      else y :: insert x rest
  end.

Definition sort (l : list A) : list A := foldr insert [] l.
End Sort.

(** *** SFTP: the [sftp.readdir] callback of [app.post('/api/fs/sftp/list')] *)

Record Attrs := {
  attrSize : option Z;
  attrMtime : Z
}.

Record SftpEntry := {
  filename : string;
  longname : string;
  attrs : Attrs
}.

Section Sftp.
(** [a.localeCompare(b)], [new Date(ms).toISOString()] and the ids
    [`sftp-${Date.now()}-${Math.random()...}`] given to the entries. *)
Variable localeCompare : string -> string -> Z.
Variable toISOString : Z -> string.
Variable freshId : nat -> string.

Definition sftp_item (targetPath : string) (i : nat) (item : SftpEntry) : FileItem :=
  let isDir := JS.startsWith "d" (longname item) in
  {| id := freshId i;
     name := filename item;
     type := if isDir then folder else file;
     size := JS.or_default (attrSize (attrs item)) 0;
     modifiedAt := toISOString (attrMtime (attrs item) * 1000);
     parentId := if String.eqb targetPath "/" then None else Some targetPath;
     path := targetPath;
     mimeType := if isDir then None else Some "application/octet-stream" |}.

(** The comparison function handed to [sort]. *)
Definition by_folder_then_name (a b : FileItem) : Z :=
  if (is_folder a && negb (is_folder b))%bool then -1
  else if (negb (is_folder a) && is_folder b)%bool then 1
  else localeCompare (name a) (name b).

Definition sftp_list (targetPath : string) (entries : list SftpEntry)
    : list FileItem :=
  let files := imap (sftp_item targetPath) entries in
  sort by_folder_then_name (filter (fun f => visible f = true) files).
End Sftp.

(** [a] may stand before [b] for a comparison function. *)
Definition precedes {A : Type} (compareFn : A -> A -> Z) (a b : A) : Prop :=
  compareFn a b <= 0.

(** The order the statements speak of: folders first, then by name. *)
Definition listed_before (localeCompare : string -> string -> Z)
    (a b : FileItem) : Prop :=
  (is_folder a = true ∧ is_folder b = false) ∨
  (is_folder a = is_folder b ∧ localeCompare (name a) (name b) <= 0).

End Listing.

(** ** The transfer list of the front end: [TransferContext] *)

Module TransferContext.

Inductive ActionType := move | copy.

Record TransferInfo := {
  id : string;
  fileName : string;
  fileSize : Z;
  srcInfo : string;
  dstInfo : string;
  srcConnId : string;
  srcPath : string;
  dstConnId : string;
  dstPath : string;
  actionType : ActionType;
  progress : Q;
  status : string;
  failed : bool;
  startTime : Z
}.

(** [{ ...t, id, progress, failed, startTime }] and the like. *)
Definition update (t : TransferInfo) (id' : string) (progress' : Q)
    (status' : string) (failed' : bool) (startTime' : Z) : TransferInfo :=
  {| id := id'; fileName := fileName t; fileSize := fileSize t;
     srcInfo := srcInfo t; dstInfo := dstInfo t;
     srcConnId := srcConnId t; srcPath := srcPath t;
     dstConnId := dstConnId t; dstPath := dstPath t;
     actionType := actionType t;
     progress := progress'; status := status'; failed := failed';
     startTime := startTime' |}.

(** [addTransfer]; [id'] is the identifier the function draws. *)
Definition addTransfer (id' : string) (now : Z) (transfer : TransferInfo)
    (prev : list TransferInfo) : list TransferInfo :=
  prev ++ [update transfer id' 0%Q (status transfer) false now].

Definition updateTransferProgress (id' : string) (progress' : Q)
    (prev : list TransferInfo) : list TransferInfo :=
  map (fun t => if String.eqb (id t) id'
                then update t (id t) progress' (status t) (failed t) (startTime t)
                else t) prev.

Definition setTransferStatus (id' : string) (status' : string)
    (prev : list TransferInfo) : list TransferInfo :=
  map (fun t => if String.eqb (id t) id'
                then update t (id t) (progress t) status' (failed t) (startTime t)
                else t) prev.

Definition setTransferFailed (id' : string) (error : string)
    (prev : list TransferInfo) : list TransferInfo :=
  map (fun t => if String.eqb (id t) id'
                then update t (id t) (progress t) error true (startTime t)
                else t) prev.

(** [completeTransfer], before its 2000 ms timeout fires. *)
Definition completeTransfer (id' : string)
    (prev : list TransferInfo) : list TransferInfo :=
  map (fun t => if String.eqb (id t) id'
                then update t (id t) 100%Q "Concluído!" (failed t) (startTime t)
                else t) prev.

(** [removeTransfer], also what the timeout of [completeTransfer] does. *)
Definition removeTransfer (id' : string)
    (prev : list TransferInfo) : list TransferInfo :=
  filter (fun t => String.eqb (id t) id' = false) prev.

End TransferContext.

(** ** Copy and move in the file explorer: [handleConfirmAction] *)

Module FileExplorer.
Import TransferContext.

Inductive ConnectionType :=
| SFTP | FTP | S3 | GDRIVE | DROPBOX | ONEDRIVE | SMB | NFS | LOCAL.

Record Connection := {
  connId : string;
  connName : string;
  connType : ConnectionType;
  accountName : option string
}.

Inductive ItemType := folder | file.

Record FileItem := {
  name : string;
  type : ItemType;
  size : option Z
}.

Inductive ConflictAction := replace | rename.

Definition isCloudProvider (t : ConnectionType) : bool :=
  match t with
  | GDRIVE | DROPBOX | ONEDRIVE => true
  | _ => false
  end.

Definition type_eqb (a b : ItemType) : bool :=
  match a, b with
  | folder, folder | file, file => true
  | _, _ => false
  end.

(** The component state [handleConfirmAction] reads. *)
Record Selection := {
  targetActionFile : option FileItem;
  selectedAction : option ActionType;
  destConnection : option Connection;
  activeConnection : option Connection;
  currentPath : string;
  destPath : string;
  destFiles : list FileItem;
  conflictAction : option ConflictAction;
  conflictRenameValue : string
}.

(** The two callbacks handed to [setInterval]; the second one carries its
    closure variable [currentProgress]. *)
Inductive Callback :=
| SimulatedProgress (transferId : string)
| ProgressIncrement (transferId : string) (currentProgress : Q).

(** The transfers, the live intervals of the window by handle,
    [transferIntervalRef.current] and the requests sent with [fetch]. *)
Record Ui := {
  transfers : list TransferInfo;
  intervals : list (nat * Callback);
  nextHandle : nat;
  transferIntervalRef : gmap string nat;
  requests : list string
}.

Definition setInterval (cb : Callback) (ui : Ui) : nat * Ui :=
  (nextHandle ui,
   {| transfers := transfers ui;
      intervals := intervals ui ++ [(nextHandle ui, cb)];
      nextHandle := S (nextHandle ui);
      transferIntervalRef := transferIntervalRef ui;
      requests := requests ui |}).

Definition clearInterval (h : nat) (ui : Ui) : Ui :=
  {| transfers := transfers ui;
     intervals := filter (fun hc => hc.1 ≠ h) (intervals ui);
     nextHandle := nextHandle ui;
     transferIntervalRef := transferIntervalRef ui;
     requests := requests ui |}.

Definition set_ref (r : gmap string nat) (ui : Ui) : Ui :=
  {| transfers := transfers ui; intervals := intervals ui;
     nextHandle := nextHandle ui; transferIntervalRef := r;
     requests := requests ui |}.

Definition set_transfers (ts : list TransferInfo) (ui : Ui) : Ui :=
  {| transfers := ts; intervals := intervals ui;
     nextHandle := nextHandle ui;
     transferIntervalRef := transferIntervalRef ui;
     requests := requests ui |}.

Definition set_intervals (l : list (nat * Callback)) (ui : Ui) : Ui :=
  {| transfers := transfers ui; intervals := l;
     nextHandle := nextHandle ui;
     transferIntervalRef := transferIntervalRef ui;
     requests := requests ui |}.

Definition fetch (url : string) (ui : Ui) : Ui :=
  {| transfers := transfers ui; intervals := intervals ui;
     nextHandle := nextHandle ui;
     transferIntervalRef := transferIntervalRef ui;
     requests := requests ui ++ [url] |}.

(** What the [try] block does up to its first [await]: the request it
    sends, with the status line shown meanwhile, or the error it throws. *)
Inductive Dispatch :=
| Fetches (status url : string)
| Throws (message : string).

Definition verb (isMove : bool) : string :=
  if isMove then "Movendo" else "Copiando".

Definition dispatch (src : Connection) (isSameConnection isMove : bool) : Dispatch :=
  if isCloudProvider (connType src) then
    Fetches (verb isMove +:+ " via cloud...")
      (if isMove then "/api/rclone/move" else "/api/rclone/copy")
  else
    match connType src, isSameConnection with
    | SFTP, true =>
        Fetches (verb isMove +:+ " via SFTP...")
          ("/api/fs/sftp/" +:+ (if isMove then "rename" else "copy"))
    | FTP, true =>
        if negb isMove
        then Throws "Copiar não é suportado em conexões FTP. Use Mover."
        else Fetches "Movendo via FTP..." "/api/fs/ftp/rename"
    | S3, true =>
        Fetches (verb isMove +:+ " via S3...")
          ("/api/fs/s3/" +:+ (if isMove then "rename" else "copy"))
    | _, _ =>
        Fetches "Transferindo entre servidores..." "/api/fs/transfer"
    end.

(** The [catch] block and the success path after the [await]: both clear
    the interval found in [transferIntervalRef] and settle the record. *)
Definition clear_registered (transferId : string) (ui : Ui) : Ui :=
  match transferIntervalRef ui !! transferId with
  | Some interval =>
      set_ref (delete transferId (transferIntervalRef ui))
        (clearInterval interval ui)
  | None => ui
  end.

Definition on_error (transferId message : string) (ui : Ui) : Ui :=
  let ui := clear_registered transferId ui in
  set_transfers (setTransferFailed transferId message (transfers ui)) ui.

Definition on_success (transferId : string) (ui : Ui) : Ui :=
  let ui := clear_registered transferId ui in
  set_transfers (completeTransfer transferId (transfers ui)) ui.

Inductive Started :=
| Ignored
| ConflictModal (conflictFileName : string)
| Running (transferId : string) (ui : Ui).

Section Locale.
(** [String.prototype.toLowerCase], which the check for an existing item
    applies to file names. *)
Variable toLowerCase : string -> string.

(** [handleConfirmAction] up to its first [await], or through its [catch]
    when the [try] block throws before sending anything.  [now] and [rnd]
    are what [Date.now()] and the random suffix of [addTransfer] give. *)
Definition handleConfirmAction (now : Z) (rnd : string) (sel : Selection)
    (ui : Ui) : Started :=
  match targetActionFile sel, destConnection sel, activeConnection sel with
  | Some target, Some dest, Some active =>
      let isMove := match selectedAction sel with Some move => true | _ => false end in
      let isSameConnection := String.eqb (connId dest) (connId active) in
      let fileNameToCheck :=
        match conflictAction sel with
        | Some rename => conflictRenameValue sel
        | _ => name target
        end in
      let existsInDest :=
        existsb (fun f =>
                   String.eqb (toLowerCase (name f)) (toLowerCase fileNameToCheck)
                   && type_eqb (type f) (type target))%bool
                (destFiles sel) in
      if (existsInDest && negb (bool_decide (is_Some (conflictAction sel))))%bool
      then ConflictModal (name target)
      else
        let finalFileName := fileNameToCheck in
        let shown p := if String.eqb p "/" then "" else p in
        let transferId := "transfer_" +:+ pretty now +:+ "_" +:+ rnd in
        let ui :=
          set_transfers
            (addTransfer transferId now
               {| id := ""; fileName := finalFileName;
                  fileSize := JS.or_default (size target) 0;
                  srcInfo := connName active +:+ ":" +:+ shown (currentPath sel)
                             +:+ "/" +:+ name target;
                  dstInfo := connName dest +:+ ":" +:+ shown (destPath sel)
                             +:+ "/" +:+ finalFileName;
                  srcConnId := connId active; srcPath := currentPath sel;
                  dstConnId := connId dest; dstPath := destPath sel;
                  actionType := if isMove then move else copy;
                  progress := 0%Q; status := "Iniciando transferência...";
                  failed := false; startTime := now |}
               (transfers ui)) ui in
        (* Start simulated progress *)
        let '(interval, ui) := setInterval (SimulatedProgress transferId) ui in
        let ui := set_ref (<[transferId := interval]> (transferIntervalRef ui)) ui in
        (* Simulated progress increment *)
        let '(progressInterval, ui) :=
          setInterval (ProgressIncrement transferId 0%Q) ui in
        let ui :=
          set_ref (<[transferId := progressInterval]> (transferIntervalRef ui)) ui in
        match dispatch active isSameConnection isMove with
        | Fetches status url =>
            Running transferId
              (fetch url
                 (set_transfers (setTransferStatus transferId status (transfers ui)) ui))
        | Throws message => Running transferId (on_error transferId message ui)
        end
  | _, _, _ => Ignored
  end.
End Locale.

(** What happens after [handleConfirmAction] returned. *)
Inductive Event :=
| Fires (handle : nat) (random : Q)
| Settles (transferId : string) (error : option string)
| Removes (transferId : string).

(** One run of an interval callback; [random] is what [Math.random()]
    returns to it. *)
Definition fire (cb : Callback) (random : Q) (ts : list TransferInfo)
    : Callback * list TransferInfo :=
  match cb with
  | SimulatedProgress transferId =>
      (cb, updateTransferProgress transferId (Qmin 95 (random * 15 + 5)) ts)
  | ProgressIncrement transferId currentProgress =>
      if Qle_bool 95 currentProgress then (cb, ts)
      else
        let currentProgress := (currentProgress + (random * 15 + 5))%Q in
        let currentProgress := Qmin currentProgress 95 in
        (ProgressIncrement transferId currentProgress,
         updateTransferProgress transferId currentProgress ts)
  end.

Definition fire_handle (h : nat) (random : Q) (ui : Ui) : Ui :=
  match list_find (fun hc => hc.1 = h) (intervals ui) with
  | Some (i, (_, cb)) =>
      let '(cb', ts) := fire cb random (transfers ui) in
      set_intervals (<[i := (h, cb')]> (intervals ui)) (set_transfers ts ui)
  | None => ui
  end.

Definition step (e : Event) (ui : Ui) : Ui :=
  match e with
  | Fires h random => fire_handle h random ui
  | Settles transferId None => on_success transferId ui
  | Settles transferId (Some message) => on_error transferId message ui
  | Removes transferId =>
      set_transfers (removeTransfer transferId (transfers ui)) ui
  end.

(** The progress the record of a transfer shows, if it is listed. *)
Definition shown_progress (transferId : string) (ui : Ui) : option Q :=
  progress <$> head (filter (fun t => id t = transferId) (transfers ui)).

(** The values shown after each event of a run. *)
Fixpoint reported (transferId : string) (events : list Event) (ui : Ui)
    : list (option Q) :=
  match events with
  | [] => []
  | e :: rest =>
      shown_progress transferId (step e ui)
      :: reported transferId rest (step e ui)
  end.

(** Every listed record of the transfer shows at most 95 percent. *)
Definition capped (transferId : string) (ts : list TransferInfo) : Prop :=
  Forall (fun t => id t = transferId -> (progress t <= 95)%Q) ts.

(** The event that completes the transfer. *)
Definition completes (transferId : string) (e : Event) : bool :=
  match e with
  | Settles i None => String.eqb i transferId
  | _ => false
  end.

(** A sequence of shown values never goes down. *)
Fixpoint non_decreasing (l : list Q) : bool :=
  match l with
  | a :: (b :: _) as rest => (Qle_bool a b && non_decreasing rest)%bool
  | _ => true
  end.

(** The message of the error thrown for a copy inside one FTP server. *)
Definition refused : string :=
  "Copiar não é suportado em conexões FTP. Use Mover.".

(** Interval handles are positive numbers. *)
Definition empty_ui : Ui :=
  {| transfers := []; intervals := []; nextHandle := 1%nat;
     transferIntervalRef := ∅; requests := [] |}.

End FileExplorer.

(** ** Concrete servers, requests and worlds *)

Module Scenarios.
Import Env.

(** Scenario A of the specification: ServerA is an SFTP server holding
    [/docs/report.pdf], ServerB an S3 bucket named [backup]. *)
Definition serverA : Transfer.Connection :=
  {| Transfer.connId := "conn-a"; Transfer.connType := Some "SFTP";
     Transfer.connHost := Some "a.example.org"; Transfer.connPort := Some 22;
     Transfer.connBucket := None; Transfer.connRegion := None |}.

Definition serverB : Transfer.Connection :=
  {| Transfer.connId := "conn-b"; Transfer.connType := Some "S3";
     Transfer.connHost := Some "s3.example.org"; Transfer.connPort := None;
     Transfer.connBucket := Some "backup"; Transfer.connRegion := None |}.

Definition serverC : Transfer.Connection :=
  {| Transfer.connId := "conn-c"; Transfer.connType := Some "FTP";
     Transfer.connHost := Some "c.example.org"; Transfer.connPort := None;
     Transfer.connBucket := None; Transfer.connRegion := None |}.

Definition nas : Transfer.Connection :=
  {| Transfer.connId := "conn-nas"; Transfer.connType := Some "SMB";
     Transfer.connHost := Some "nas.example.org/share"; Transfer.connPort := None;
     Transfer.connBucket := None; Transfer.connRegion := None |}.

Definition report : list Byte.byte := [Byte.x25; Byte.x50; Byte.x44; Byte.x46].
Definition minutes : list Byte.byte := [Byte.x6d; Byte.x69; Byte.x6e].

Definition docsReport : Loc := (SftpServer (Some "a.example.org") 2222, "/docs/report.pdf").
Definition pubReport : Loc := (FtpServer (Some "c.example.org") 21, "/pub/report.pdf").
Definition archiveReport : Loc :=
  (S3Bucket (Some "s3.example.org") (Some "backup"), "archive/report.pdf").
Definition incomingReport : Loc :=
  (S3Bucket (Some "s3.example.org") (Some "backup"), "incoming/report.pdf").

Definition bob : Credentials :=
  {| username := "bob"; password := "hunter2"; port := Some 2222;
     credSecure := None |}.

Definition world0 : World :=
  {| remote := {[ docsReport := report; pubReport := minutes ]};
     localfs := ∅;
     credentials := {[ "u1:conn-a" := bob ]};
     calls := [];
     plan := [] |}.

Definition moveReport : Transfer.Request :=
  {| Transfer.srcConnection := serverA; Transfer.dstConnection := serverB;
     Transfer.srcPath := "/docs/report.pdf";
     Transfer.dstPath := "/archive/report.pdf";
     Transfer.fileName := "report.pdf";
     Transfer.isMove := true; Transfer.isDir := false |}.

Definition copyMinutes : Transfer.Request :=
  {| Transfer.srcConnection := serverC; Transfer.dstConnection := serverB;
     Transfer.srcPath := "/pub/report.pdf";
     Transfer.dstPath := "/incoming/report.pdf";
     Transfer.fileName := "report.pdf";
     Transfer.isMove := false; Transfer.isDir := false |}.

Definition moveFolder : Transfer.Request :=
  {| Transfer.srcConnection := serverA; Transfer.dstConnection := serverB;
     Transfer.srcPath := "/docs"; Transfer.dstPath := "/archive";
     Transfer.fileName := "docs";
     Transfer.isMove := true; Transfer.isDir := true |}.

Definition fromNas : Transfer.Request :=
  {| Transfer.srcConnection := nas; Transfer.dstConnection := serverB;
     Transfer.srcPath := "/report.pdf"; Transfer.dstPath := "/archive/report.pdf";
     Transfer.fileName := "report.pdf";
     Transfer.isMove := false; Transfer.isDir := false |}.

Definition toNas : Transfer.Request :=
  {| Transfer.srcConnection := serverA; Transfer.dstConnection := nas;
     Transfer.srcPath := "/docs/report.pdf"; Transfer.dstPath := "/report.pdf";
     Transfer.fileName := "report.pdf";
     Transfer.isMove := true; Transfer.isDir := false |}.

(** The keys stored for the bucket and the account stored for the FTP
    server. *)
Definition bucketKeys : Credentials :=
  {| username := "AKIDEXAMPLE"; password := "bucket-secret"; port := None;
     credSecure := None |}.

Definition ftpAccount : Credentials :=
  {| username := "carol"; password := "ftp-secret"; port := None;
     credSecure := None |}.

(** The servers of [world0], with credentials stored for each of them. *)
Definition world1 : World :=
  {| remote := {[ docsReport := report; pubReport := minutes ]};
     localfs := ∅;
     credentials := {[ "u1:conn-a" := bob; "u1:conn-b" := bucketKeys;
                       "u1:conn-c" := ftpAccount ]};
     calls := [];
     plan := [] |}.

(** The bucket holds [archive/report.pdf] under keys that may read it but
    not delete it: the download, the connection to ServerA and the upload
    go through, and the answer of [DeleteObjectsCommand] names the key as
    not deleted. *)
Definition archiveWorld : World :=
  {| remote := {[ archiveReport := report ]};
     localfs := ∅;
     credentials := {[ "u1:conn-a" := bob; "u1:conn-b" := bucketKeys ]};
     calls := [];
     plan := [NoFault; NoFault; NoFault; Reported "AccessDenied"] |}.

(** The move of the archived report back to [/docs] of ServerA. *)
Definition restoreReport : Transfer.Request :=
  {| Transfer.srcConnection := serverB; Transfer.dstConnection := serverA;
     Transfer.srcPath := "/archive/report.pdf";
     Transfer.dstPath := "/docs/report.pdf";
     Transfer.fileName := "report.pdf";
     Transfer.isMove := true; Transfer.isDir := false |}.

(** Scenario D of the specification: the bucket holds [old.txt], which is
    to be renamed to [new.txt]. *)
Definition oldTxt : Loc :=
  (S3Bucket (Some "s3.example.org") (Some "backup"), "old.txt").
Definition newTxt : Loc :=
  (S3Bucket (Some "s3.example.org") (Some "backup"), "new.txt").

Definition oldInBucket : World :=
  {| remote := {[ oldTxt := minutes ]};
     localfs := ∅;
     credentials := {[ "u1:conn-b" := bucketKeys ]};
     calls := [];
     plan := [] |}.

Definition renameOld : S3Rename.Request :=
  {| S3Rename.host := Some "s3.example.org";
     S3Rename.username := None; S3Rename.password := None;
     S3Rename.bucket := Some "backup";
     S3Rename.oldKey := Some "old.txt"; S3Rename.newKey := Some "new.txt";
     S3Rename.region := None; S3Rename.connectionId := Some "conn-b" |}.

(** A request that names a connection with stored credentials and also
    carries a user name and a password of its own. *)
Definition explicitRequest : Sftp.Request :=
  {| Sftp.host := Some "a.example.org"; Sftp.port := Some 22;
     Sftp.username := Some "alice"; Sftp.password := Some "wonderland";
     Sftp.connectionId := Some "conn-a"; Sftp.remotePath := Some "/docs";
     Sftp.file := Some "uploads_temp/3f9a" |}.

(** Scenario C: [/home/user] holds the file [zeta.txt], the folder [Alpha]
    and the file [.hidden], read by the system in this order. *)
Definition homeUser : Listing.LocalFs :=
  {| Listing.statSync := fun p =>
       if String.eqb p "/home/user" || String.eqb p "/home/user/Alpha" then
         Some {| Listing.isDirectory := true; Listing.statSize := 4096;
                 Listing.mtime := "2024-01-01T00:00:00.000Z" |}
       else if String.eqb p "/home/user/zeta.txt"
               || String.eqb p "/home/user/.hidden" then
         Some {| Listing.isDirectory := false; Listing.statSize := 12;
                 Listing.mtime := "2024-01-02T00:00:00.000Z" |}
       else None;
     Listing.readdirSync := fun p =>
       if String.eqb p "/home/user" then Val ["zeta.txt"; "Alpha"; ".hidden"]
       else Throw "ENOTDIR: not a directory" |}.

(** The same directory as an SFTP server reports it. *)
Definition homeUserSftp : list Listing.SftpEntry :=
  [ {| Listing.filename := "zeta.txt";
       Listing.longname := "-rw-r--r-- 1 user user 12 Jan  2 00:00 zeta.txt";
       Listing.attrs := {| Listing.attrSize := Some 12; Listing.attrMtime := 1704153600 |} |};
    {| Listing.filename := "Alpha";
       Listing.longname := "drwxr-xr-x 2 user user 4096 Jan  1 00:00 Alpha";
       Listing.attrs := {| Listing.attrSize := Some 4096; Listing.attrMtime := 1704067200 |} |};
    {| Listing.filename := ".hidden";
       Listing.longname := "-rw-r--r-- 1 user user 12 Jan  2 00:00 .hidden";
       Listing.attrs := {| Listing.attrSize := Some 12; Listing.attrMtime := 1704153600 |} |} ].

(** A comparison of names by code unit, standing in for [localeCompare]. *)
Definition byCodeUnit (a b : string) : Z :=
  match String.compare a b with
  | Lt => -1
  | Eq => 0
  | Gt => 1
  end.

(** A copy and a move inside one FTP server. *)
Definition ftpServer : FileExplorer.Connection :=
  {| FileExplorer.connId := "conn-ftp"; FileExplorer.connName := "Files";
     FileExplorer.connType := FileExplorer.FTP;
     FileExplorer.accountName := None |}.

Definition reportFile : FileExplorer.FileItem :=
  {| FileExplorer.name := "report.pdf"; FileExplorer.type := FileExplorer.file;
     FileExplorer.size := Some 2048 |}.

Definition selection (action : TransferContext.ActionType) : FileExplorer.Selection :=
  {| FileExplorer.targetActionFile := Some reportFile;
     FileExplorer.selectedAction := Some action;
     FileExplorer.destConnection := Some ftpServer;
     FileExplorer.activeConnection := Some ftpServer;
     FileExplorer.currentPath := "/docs";
     FileExplorer.destPath := "/archive";
     FileExplorer.destFiles := [];
     FileExplorer.conflictAction := None;
     FileExplorer.conflictRenameValue := "" |}.

(** Two ticks of the two intervals, the end of the request, one more tick. *)
Definition ticks (transferId : string) : list FileExplorer.Event :=
  [ FileExplorer.Fires 1 (1 # 2); FileExplorer.Fires 2 (1 # 2);
    FileExplorer.Fires 1 (1 # 4); FileExplorer.Fires 2 (1 # 4);
    FileExplorer.Settles transferId None;
    FileExplorer.Fires 1 (1 # 2); FileExplorer.Fires 2 (1 # 2) ].

End Scenarios.

(** ** Text *)

Module Text.

(** Whether a character occurs in a text. *)
Fixpoint occurs (c : ascii) (s : string) : bool :=
  match s with
  | EmptyString => false
  | String a r => (Ascii.eqb a c || occurs c r)%bool
  end.

(** A plain file name: one without a path separator, which [path.join]
    keeps as it is. *)
Definition plain (fileName : string) : Prop := occurs "/" fileName = false.

End Text.

(** ** What the calls of a transfer reported *)

Module TransferLog.
Import Env.

(** What a call into a protocol library reported. *)
Definition call_ok (c : Call) : bool :=
  match c with
  | CConnect _ ok | CGet _ _ _ ok | CPut _ _ _ ok
  | CCopy _ _ _ ok | CDelete _ _ ok => ok
  end.

(** The delete of an object of a bucket, the one call whose refusal can
    come inside its answer. *)
Definition bucket_delete (c : Call) : bool :=
  match c with
  | CDelete s _ _ => is_bucket (endpoint s)
  | _ => false
  end.

End TransferLog.

(** ** Copy inside an S3 bucket: [app.post('/api/fs/s3/copy')] *)

Module S3Copy.
Import Env.
Open Scope js_scope.

(** [req.body]. *)
Record Request := {
  host : option string;
  username : option string;
  password : option string;
  bucket : option string;
  srcKey : option string;
  dstKey : option string;
  region : option string;
  connectionId : option string
}.

(** The access key and the secret the client is created with. *)
Definition resolve (userId : string) (req : Request)
    (store : gmap string Credentials) : option string * option string :=
  if (JS.truthy_str (connectionId req)
      && (negb (JS.truthy_str (username req))
          || negb (JS.truthy_str (password req))))%bool
  then
    match getConnectionCredentials (JS.or_empty (connectionId req)) userId store with
    | Some stored => (Some (Env.username stored), Some (Env.password stored))
    | None => (username req, password req)
    end
  else (username req, password req).

Definition copy (userId : string) (req : Request) : M Response :=
  fun w =>
    let '(accessKeyId, secretAccessKey) := resolve userId req (credentials w) in
    if (negb (JS.truthy_str accessKeyId) || negb (JS.truthy_str secretAccessKey)
        || negb (JS.truthy_str (bucket req)) || negb (JS.truthy_str (srcKey req))
        || negb (JS.truthy_str (dstKey req)))%bool
    then (Val (Error 400 "Credenciais, bucket e keys são obrigatórios"), w)
    else
      try_catch
        (let client :=
           createS3Client (host req) accessKeyId secretAccessKey (region req)
             (bucket req) in
         copy_object client (JS.or_empty (srcKey req)) (JS.or_empty (dstKey req)) ;;
         ret (Success "Arquivo copiado com sucesso"))
        (fun message => ret (Error 500 message)) w.

(** The request for a copy with the fields of a request for a rename. *)
Definition of_rename (req : S3Rename.Request) : Request :=
  {| host := S3Rename.host req;
     username := S3Rename.username req;
     password := S3Rename.password req;
     bucket := S3Rename.bucket req;
     srcKey := S3Rename.oldKey req;
     dstKey := S3Rename.newKey req;
     region := S3Rename.region req;
     connectionId := S3Rename.connectionId req |}.

End S3Copy.

(** ** The credential file and its routes *)

Module CredentialFile.
Import Env.

(** What [encrypt] returns: three hexadecimal strings. *)
Record EncryptedObj := {
  iv : string;
  encryptedData : string;
  authTag : string
}.

(** One entry of the credential file. *)
Record Stored := {
  storedUsername : EncryptedObj;
  storedPassword : EncryptedObj;
  storedPort : option Z;
  storedSecure : option bool;
  updatedAt : string
}.

(** The credential file as [getCredentials] reads it (the empty object when
    the file is missing or unreadable), and whether it can be written. *)
Record Disk := {
  file : gmap string Stored;
  writable : bool
}.

(** [`${userId}:${connectionId}`]. *)
Definition key (connectionId userId : string) : string :=
  userId +:+ ":" +:+ connectionId.

(** [saveCredentials]: [fs.writeFileSync] replaces the file or throws. *)
Definition saveCredentials (credentials : gmap string Stored) (d : Disk)
    : Res unit * Disk :=
  if writable d then (Val tt, {| file := credentials; writable := true |})
  else (Throw "EACCES: permission denied", d).

(** What the credential routes answer. *)
Inductive Reply :=
| Saved (message : string)
| Found (username password : string) (port : option Z) (secure : option bool)
| Known (exists_ hasPort hasSecure : bool)
| Refused (status : Z) (error : string).

(** [req.body] of the route that saves credentials. *)
Record Body := {
  username : option string;
  password : option string;
  port : option Z;
  secure : option bool
}.

Section Cipher.
(** [encrypt(text)] with the initialisation vector it draws, and
    [decrypt(encryptedObj)], which is [null] when decryption fails. *)
Variable encrypt : string -> string -> EncryptedObj.
Variable decrypt : EncryptedObj -> option string.

Definition getConnectionCredentials (connectionId userId : string) (d : Disk)
    : option Credentials :=
  match file d !! key connectionId userId with
  | None => None
  | Some stored =>
      match decrypt (storedUsername stored), decrypt (storedPassword stored) with
      | Some decryptedUsername, Some decryptedPassword =>
          if (String.eqb decryptedUsername "" || String.eqb decryptedPassword "")%bool
          then None
          else Some {| Env.username := decryptedUsername;
                       Env.password := decryptedPassword;
                       Env.port := storedPort stored;
                       Env.credSecure := storedSecure stored |}
      | _, _ => None
      end
  end.

(** [iv1] and [iv2] are the vectors the two calls of [encrypt] draw, [now]
    is [new Date().toISOString()]. *)
Definition saveConnectionCredentials (connectionId userId username password : string)
    (port : option Z) (secure : option bool) (iv1 iv2 now : string) (d : Disk)
    : Res unit * Disk :=
  saveCredentials
    (<[key connectionId userId :=
         {| storedUsername := encrypt iv1 username;
            storedPassword := encrypt iv2 password;
            storedPort := port;
            storedSecure := secure;
            updatedAt := now |}]> (file d)) d.

Definition deleteConnectionCredentials (connectionId userId : string) (d : Disk)
    : Res bool * Disk :=
  match file d !! key connectionId userId with
  | Some _ =>
      match saveCredentials (delete (key connectionId userId) (file d)) d with
      | (Val _, d') => (Val true, d')
      | (Throw message, d') => (Throw message, d')
      end
  | None => (Val false, d)
  end.

(** [app.post('/api/credentials/:connectionId')]. *)
Definition post_credentials (connectionId userId : string) (body : Body)
    (iv1 iv2 now : string) (d : Disk) : Reply * Disk :=
  if (negb (JS.truthy_str (username body)) || negb (JS.truthy_str (password body)))%bool
  then (Refused 400 "Usuário e senha são obrigatórios", d)
  else
    match saveConnectionCredentials connectionId userId
            (JS.or_empty (username body)) (JS.or_empty (password body))
            (port body) (secure body) iv1 iv2 now d with
    | (Val _, d') => (Saved "Credenciais salvas com segurança", d')
    | (Throw _, d') => (Refused 500 "Erro ao salvar credenciais", d')
    end.

(** [app.get('/api/credentials/:connectionId')]. *)
Definition get_credentials (connectionId userId : string) (d : Disk) : Reply :=
  match getConnectionCredentials connectionId userId d with
  | None => Refused 404 "Credenciais não encontradas"
  | Some credentials =>
      Found (Env.username credentials) (Env.password credentials)
        (Env.port credentials) (Env.credSecure credentials)
  end.

(** [app.get('/api/credentials/:connectionId/exists')]. *)
Definition credentials_exist (connectionId userId : string) (d : Disk) : Reply :=
  let credentials := getConnectionCredentials connectionId userId d in
  Known (bool_decide (is_Some credentials))
    (bool_decide (is_Some (credentials ≫= Env.port)))
    (bool_decide (is_Some (credentials ≫= Env.credSecure))).

(** [app.delete('/api/credentials/:connectionId')]; a write that throws
    leaves the route without an answer of its own. *)
Definition delete_credentials (connectionId userId : string) (d : Disk)
    : Res Reply * Disk :=
  match deleteConnectionCredentials connectionId userId d with
  | (Val true, d') => (Val (Saved "Credenciais removidas"), d')
  | (Val false, d') => (Val (Refused 404 "Credenciais não encontradas"), d')
  | (Throw message, d') => (Throw message, d')
  end.

End Cipher.

End CredentialFile.

(** ** The user file and its routes *)

Module Users.

(** The routes are modelled for requests and user files whose [name],
    [email], [password] and [role] are JSON strings or absent, which is what
    the front end sends.  On such values [===] is equality; a request that
    carries an object, an array, a number or [null] in one of these fields
    is outside the model. *)

(** One entry of [users.json] as the server writes it; a field the request
    did not carry is absent. *)
Record User := {
  id : string;
  name : option string;
  email : option string;
  passwordHash : string;
  role : string;
  createdAt : string
}.

(** [req.body] of the routes. *)
Record Body := {
  bodyName : option string;
  bodyEmail : option string;
  bodyPassword : option string;
  bodyRole : option string
}.

(** [Date.now()], [new Date().toISOString()] and the time [jwt.sign]
    stamps the token with. *)
Record Clock := {
  dateNow : Z;
  isoNow : string;
  issuedAt : Z
}.

(** What the routes answer; a user is sent without its [passwordHash].
    [Unhandled] is a handler that throws, which Express answers by itself. *)
Inductive Reply :=
| Session (token : string) (userId : string) (userName userEmail : option string)
    (userRole userCreatedAt : string)
| Created (userId : string) (userName userEmail : option string)
    (userRole userCreatedAt : string)
| Deleted
| Refused (status : Z) (error : string)
| Unhandled.

Section Crypto.
(** [bcrypt.hashSync(password, 10)], [bcrypt.compareSync],
    [jwt.sign({ id, role }, JWT_SECRET, ...)] at a time, and
    [password.length]. *)
Variable hashSync : string -> string.
Variable compareSync : string -> string -> bool.
Variable sign : string -> string -> Z -> string.
Variable codeUnits : string -> nat.

(** [users.find(u => u.email === email)]. *)
Definition findByEmail (e : option string) (users : list User) : option User :=
  List.find (fun u => bool_decide (email u = e)) users.

(** [app.post('/api/auth/login')]; [compareSync] throws on a password that
    is not a string, which the handler catches. *)
Definition login (clock : Clock) (body : Body) (users : list User) : Reply :=
  match findByEmail (bodyEmail body) users with
  | None => Refused 401 "Credenciais inválidas"
  | Some user =>
      match bodyPassword body with
      | None => Refused 500 "Erro interno no servidor"
      | Some password =>
          if compareSync password (passwordHash user) then
            Session (sign (id user) (role user) (issuedAt clock))
              (id user) (name user) (email user) (role user) (createdAt user)
          else Refused 401 "Credenciais inválidas"
      end
  end.

(** [app.post('/api/auth/register')]. *)
Definition register (clock : Clock) (body : Body) (users : list User)
    : Reply * list User :=
  if (negb (JS.truthy_str (bodyName body)) || negb (JS.truthy_str (bodyEmail body))
      || negb (JS.truthy_str (bodyPassword body)))%bool
  then (Refused 400 "Nome, email e senha são obrigatórios", users)
  else if Nat.ltb (codeUnits (JS.or_empty (bodyPassword body))) 6
  then (Refused 400 "A senha deve ter pelo menos 6 caracteres", users)
  else
    match findByEmail (bodyEmail body) users with
    | Some _ => (Refused 400 "Este email já está cadastrado", users)
    | None =>
        let newUser :=
          {| id := pretty (dateNow clock);
             name := bodyName body;
             email := bodyEmail body;
             passwordHash := hashSync (JS.or_empty (bodyPassword body));
             role := "user";
             createdAt := isoNow clock |} in
        (Session (sign (id newUser) (role newUser) (issuedAt clock))
           (id newUser) (name newUser) (email newUser) (role newUser)
           (createdAt newUser),
         (users ++ [newUser])%list)
    end.

(** [app.post('/api/users')]; [hashSync] throws on a password that is not
    a string, and nothing catches it. *)
Definition createUser (clock : Clock) (body : Body) (users : list User)
    : Reply * list User :=
  match findByEmail (bodyEmail body) users with
  | Some _ => (Refused 400 "Email já cadastrado", users)
  | None =>
      match bodyPassword body with
      | None => (Unhandled, users)
      | Some password =>
          let newUser :=
            {| id := pretty (dateNow clock);
               name := bodyName body;
               email := bodyEmail body;
               passwordHash := hashSync password;
               role := if JS.truthy_str (bodyRole body)
                       then JS.or_empty (bodyRole body) else "user";
               createdAt := isoNow clock |} in
          (Created (id newUser) (name newUser) (email newUser) (role newUser)
             (createdAt newUser),
           (users ++ [newUser])%list)
      end
  end.

(** [app.delete('/api/users/:id')]. *)
Definition deleteUser (paramId : string) (users : list User)
    : Reply * list User :=
  let initialLen := List.length users in
  let users' := filter (fun u => id u ≠ paramId) users in
  if Nat.eqb (List.length users') initialLen
  then (Refused 404 "Usuário não encontrado", users)
  else (Deleted, users').

(** The requests that write the user file. *)
Inductive Op :=
| Register (clock : Clock) (body : Body)
| Create (clock : Clock) (body : Body)
| Delete (paramId : string).

Definition perform (op : Op) (users : list User) : list User :=
  match op with
  | Register clock body => snd (register clock body users)
  | Create clock body => snd (createUser clock body users)
  | Delete paramId => snd (deleteUser paramId users)
  end.

Definition serve (ops : list Op) (users : list User) : list User :=
  foldl (fun users op => perform op users) users ops.

End Crypto.
End Users.

(** ** Runs and paths of the file explorer *)

Module ExplorerRuns.
Import TransferContext FileExplorer.

(** The value of a member of [ConnectionType], which the explorer sends as
    the [type] of a connection. *)
Definition type_name (t : ConnectionType) : string :=
  match t with
  | SFTP => "SFTP" | FTP => "FTP" | S3 => "S3"
  | GDRIVE => "Google Drive" | DROPBOX => "Dropbox" | ONEDRIVE => "OneDrive"
  | SMB => "SMB" | NFS => "NFS" | LOCAL => "Local"
  end.

(** [srcFullPath] and [dstFullPath]. *)
Definition fullPath (savedPath fileName : string) : string :=
  if String.eqb savedPath "/" then "/" +:+ fileName
  else savedPath +:+ "/" +:+ fileName.

(** [srcKey] and [dstKey] of a copy or move inside one bucket. *)
Definition objectKey (savedPath fileName : string) : string :=
  if String.eqb savedPath "/" then fileName
  else JS.substring1 savedPath +:+ "/" +:+ fileName.

(** The events of a run, one after the other. *)
Definition run (events : list Event) (ui : Ui) : Ui :=
  foldl (fun u e => step e u) ui events.

(** Handles are positive, and every handle in use is below the next one
    [setInterval] gives out. *)
Definition fresh_handles (ui : Ui) : Prop :=
  (0 < nextHandle ui)%nat /\
  (forall h cb, (h, cb) ∈ intervals ui -> (h < nextHandle ui)%nat) /\
  (forall k h, transferIntervalRef ui !! k = Some h -> (h < nextHandle ui)%nat).

(** An interval is live and no transfer is registered with its handle. *)
Definition kept (h : nat) (cb : Callback) (ui : Ui) : Prop :=
  (h, cb) ∈ intervals ui /\
  forall k h', transferIntervalRef ui !! k = Some h' -> h' <> h.

(** A transfer is listed. *)
Definition listed (transferId : string) (ts : list TransferInfo) : Prop :=
  Exists (fun t => id t = transferId) ts.

End ExplorerRuns.

(** ** More concrete requests and files *)

Module Examples.
Import Env.

(** A cipher that keeps the text, standing in for AES-256-GCM. *)
Definition keepText (iv text : string) : CredentialFile.EncryptedObj :=
  {| CredentialFile.iv := iv; CredentialFile.encryptedData := text;
     CredentialFile.authTag := "" |}.

Definition readText (e : CredentialFile.EncryptedObj) : option string :=
  Some (CredentialFile.encryptedData e).

Definition emptyDisk : CredentialFile.Disk :=
  {| CredentialFile.file := ∅; CredentialFile.writable := true |}.

Definition bobBody : CredentialFile.Body :=
  {| CredentialFile.username := Some "bob";
     CredentialFile.password := Some "hunter2";
     CredentialFile.port := Some 2222;
     CredentialFile.secure := None |}.

(** The disk after bob's credentials for [conn-a] were saved. *)
Definition bobDisk : CredentialFile.Disk :=
  snd (CredentialFile.post_credentials keepText "conn-a" "1700000000001" bobBody
         "00" "01" "2024-01-01T00:00:00.000Z" emptyDisk).

(** A move of [/docs/report.pdf] of ServerA to the place where it is. *)
Definition moveOntoItself : Transfer.Request :=
  {| Transfer.srcConnection := Scenarios.serverA;
     Transfer.dstConnection := Scenarios.serverA;
     Transfer.srcPath := "/docs/report.pdf";
     Transfer.dstPath := "/docs/report.pdf";
     Transfer.fileName := "report.pdf";
     Transfer.isMove := true; Transfer.isDir := false |}.

(** The disk after dave, another user, saved credentials for [conn-a]
    too. *)
Definition twoDisk : CredentialFile.Disk :=
  snd (CredentialFile.saveConnectionCredentials keepText "conn-a" "1700000000002"
         "dave" "letmein" (Some 22) None "02" "03" "2024-01-02T00:00:00.000Z"
         bobDisk).

(** A rename of an object the bucket does not hold. *)
Definition renameMissing : S3Rename.Request :=
  {| S3Rename.host := Some "s3.example.org";
     S3Rename.username := Some "AKIAEXAMPLE"; S3Rename.password := Some "secret";
     S3Rename.bucket := Some "backup";
     S3Rename.oldKey := Some "old.txt"; S3Rename.newKey := Some "new.txt";
     S3Rename.region := None; S3Rename.connectionId := None |}.

(** A hash that keeps the password, standing in for bcrypt. *)
Definition keepPassword (password : string) : string := "$2a$10$" +:+ password.

Definition samePassword (password hash : string) : bool :=
  String.eqb (keepPassword password) hash.

Definition signed (userId role : string) (iat : Z) : string :=
  userId +:+ "." +:+ role +:+ "." +:+ pretty iat.

(** The user file the server starts with. *)
Definition admin : Users.User :=
  {| Users.id := "1"; Users.name := Some "Administrador";
     Users.email := Some "admin@nexus.com";
     Users.passwordHash := keepPassword "admin123";
     Users.role := "admin"; Users.createdAt := "2024-01-01T00:00:00.000Z" |}.

Definition carol : Users.Body :=
  {| Users.bodyName := Some "Carol"; Users.bodyEmail := Some "carol@example.org";
     Users.bodyPassword := Some "s3cret!"; Users.bodyRole := None |}.

Definition dave : Users.Body :=
  {| Users.bodyName := Some "Dave"; Users.bodyEmail := Some "dave@example.org";
     Users.bodyPassword := Some "letmein!"; Users.bodyRole := None |}.

Definition noon : Users.Clock :=
  {| Users.dateNow := 1700000000000;
     Users.isoNow := "2023-11-14T22:13:20.000Z";
     Users.issuedAt := 1700000000 |}.

Definition later : Users.Clock :=
  {| Users.dateNow := 1700000060000;
     Users.isoNow := "2023-11-14T22:14:20.000Z";
     Users.issuedAt := 1700000060 |}.

(** A listed transfer. *)
Definition upload1 : TransferContext.TransferInfo :=
  {| TransferContext.id := "transfer_1_a"; TransferContext.fileName := "a.txt";
     TransferContext.fileSize := 1;
     TransferContext.srcInfo := "Files:/a.txt"; TransferContext.dstInfo := "Files:/b/a.txt";
     TransferContext.srcConnId := "conn-ftp"; TransferContext.srcPath := "/";
     TransferContext.dstConnId := "conn-ftp"; TransferContext.dstPath := "/b";
     TransferContext.actionType := TransferContext.move;
     TransferContext.progress := 0%Q; TransferContext.status := "Iniciando transferência...";
     TransferContext.failed := false; TransferContext.startTime := 1 |}.

(** The move of [report.pdf] once [handleConfirmAction] has started it. *)
Definition startedId : string := "transfer_1700000000000_k3j9x2m1q".

Definition startedUi : FileExplorer.Ui :=
  match FileExplorer.handleConfirmAction JS.toLowerCase 1700000000000 "k3j9x2m1q"
          (Scenarios.selection TransferContext.move) FileExplorer.empty_ui with
  | FileExplorer.Running _ ui => ui
  | _ => FileExplorer.empty_ui
  end.

(** A share of the NAS as the explorer knows it. *)
Definition nasShare : FileExplorer.Connection :=
  {| FileExplorer.connId := "conn-nas"; FileExplorer.connName := "NAS";
     FileExplorer.connType := FileExplorer.SMB;
     FileExplorer.accountName := None |}.

End Examples.

(** * Properties *)

(** Unfolding one call into the protocol libraries, and reading the fields
    of the world it produced. *)
Ltac unfold_prims :=
  unfold Env.connect, Env.download, Env.upload, Env.delete_remote,
    Env.copy_object, Env.leave, Env.write_local, Env.write_remote,
    Env.existsSync, Env.unlinkSync, Env.log, Env.next_fault,
    Env.bind, Env.ret, Env.throw in *.

Ltac world_simpl :=
  cbn [fst snd Env.remote Env.localfs Env.credentials Env.calls Env.plan
       Env.set_remote Env.set_localfs Env.set_calls Env.set_plan
       Env.endpoint] in *.

(** Case analysis on what a run depends on: the next fault of the plan, the
    presence of a file, the kind of a connection. *)
Ltac split_run H :=
  repeat match type of H with
  | context [match hd Env.NoFault ?p with _ => _ end] =>
      destruct (hd Env.NoFault p) as [|? [?|]|?]; world_simpl
  | context [match ?m !! ?k with _ => _ end] =>
      let E := fresh "E" in destruct (m !! k) eqn:E; world_simpl
  | context [if String.eqb ?a ?b then _ else _] =>
      let E := fresh "E" in destruct (String.eqb a b) eqn:E; world_simpl
  end.

(** The log grew by the calls that can be read off the goal. *)
Ltac log_ext :=
  rewrite <- ?app_assoc; eexists;
  split; [ first [reflexivity | symmetry; apply app_nil_r] | ]; cbn.

Module TransferProofs.
Import Env Transfer.
Open Scope list_scope.

(** ** The log *)

Lemma issued_app w w' cs : calls w' = calls w ++ cs -> issued w w' = cs.
Proof. unfold issued. intros ->. apply drop_app_length. Qed.

Lemma issued_cleaned tmp w w' : issued w (cleaned tmp w') = issued w w'.
Proof. reflexivity. Qed.

Lemma none_of (f g : Call -> bool) cs :
  (forall c, f c = true -> g c = false) ->
  forallb f cs = true -> existsb g cs = false.
Proof.
  intros Hfg. induction cs as [|c cs IH]; cbn; [done |].
  intros [Hc Hcs]%andb_true_iff. by rewrite (Hfg c Hc), IH.
Qed.

Lemma after_upload_none cs : upload_ok cs = false -> after_upload cs = [].
Proof.
  unfold upload_ok. induction cs as [|c cs IH]; cbn; [done |].
  destruct (is_put_ok c); cbn; [discriminate | exact IH].
Qed.

Lemma after_upload_app cs1 cs2 :
  after_upload (cs1 ++ cs2) =
  if upload_ok cs1 then after_upload cs1 ++ cs2 else after_upload cs2.
Proof.
  unfold upload_ok. induction cs1 as [|c cs IH]; cbn; [done |].
  destruct (is_put_ok c); cbn; [done | exact IH].
Qed.

Lemma fetch_calls cs :
  forallb is_fetch_call cs = true ->
  upload_ok cs = false /\ existsb is_put cs = false /\
  existsb is_delete cs = false /\ existsb is_delete_ok cs = false.
Proof.
  intros H. repeat split; (eapply none_of; [| exact H]); by intros [].
Qed.

Lemma place_calls cs :
  forallb is_place_call cs = true ->
  existsb is_delete cs = false /\ existsb is_delete_ok cs = false.
Proof.
  intros H. split; (eapply none_of; [| exact H]); by intros [].
Qed.

(** ** Kinds and locations *)

Lemma location_supported c cr p l :
  location c cr p = Some l -> supported c = true.
Proof.
  unfold supported, location.
  by destruct (String.eqb (kind c) "sftp"), (String.eqb (kind c) "ftp"),
    (String.eqb (kind c) "s3").
Qed.

Lemma localfs_staged tmp (m m' : gmap string (list Byte.byte)) :
  (forall p, p <> tmp -> m' !! p = m !! p) -> delete tmp m' = delete tmp m.
Proof.
  intros H. apply map_eq. intros p. destruct (decide (tmp = p)) as [<-|Hne].
  - by rewrite !lookup_delete_eq.
  - rewrite !lookup_delete_ne by done. apply H. congruence.
Qed.

(** ** The three steps *)

(** Step 1 writes nothing but the staging file and touches no remote
    store; when it returns, the staging file holds the source content. *)
Lemma step1_spec src cr path tmp w r w' :
  step1 src cr (kind src) path tmp w = (r, w') ->
  remote w' = remote w /\ credentials w' = credentials w /\
  (forall p, p <> tmp -> localfs w' !! p = localfs w !! p) /\
  (exists cs, calls w' = calls w ++ cs /\ forallb is_fetch_call cs = true /\
     existsb is_get_ok cs = match r with Val _ => true | Throw _ => false end) /\
  match r with
  | Val _ =>
      exists l data, location src cr path = Some l /\
        remote w !! l = Some data /\ localfs w' !! tmp = Some data
  | Throw msg =>
      supported src = false ->
      w' = w /\
      msg = "Tipo de conexão origem não suportado: " +:+ JS.show (connType src)
  end.
Proof.
  unfold step1, location, supported. intros H. unfold_prims. world_simpl.
  split_run H.
  all: inversion H; subst; clear H; world_simpl.
  all: repeat split; try reflexivity; try discriminate.
  all: try (intros p Hp; by rewrite lookup_insert_ne).
  all: try (log_ext; split; reflexivity).
  all: try (eexists _, _;
            split; [reflexivity | split; [eassumption | apply lookup_insert_eq]]).
Qed.

(** Step 2 writes nothing but the destination file; it reports success
    exactly when its last call is an upload that returned. *)
Lemma step2_spec dst cr tmp path w r w' :
  step2 dst cr (kind dst) tmp path w = (r, w') ->
  localfs w' = localfs w /\ credentials w' = credentials w /\
  (exists cs, calls w' = calls w ++ cs /\ forallb is_place_call cs = true /\
     after_upload cs = [] /\
     upload_ok cs = match r with Val _ => true | Throw _ => false end) /\
  match r with
  | Val _ =>
      exists l data, location dst cr path = Some l /\
        localfs w !! tmp = Some data /\ remote w' = <[l := data]> (remote w)
  | Throw msg =>
      (forall l, location dst cr path <> Some l -> remote w' !! l = remote w !! l) /\
      (supported dst = false ->
       w' = w /\
       msg = "Tipo de conexão destino não suportado: " +:+ JS.show (connType dst))
  end.
Proof.
  unfold step2, location, supported. intros H. unfold_prims. world_simpl.
  split_run H.
  all: inversion H; subst; clear H; world_simpl.
  all: repeat split; try reflexivity; try discriminate.
  all: try (log_ext; repeat split; reflexivity).
  all: try (eexists _, _; split; [reflexivity | split; reflexivity]).
  all: try (intros ? Hl; rewrite lookup_insert_ne;
            [reflexivity | intros <-; by apply Hl]).
Qed.

(** Step 3 only calls the server of the source file and removes nothing
    else.  It removes the source exactly when a delete reported success; the
    step that returns without one is the delete of an S3 object that the
    answer of [DeleteObjectsCommand] names as not deleted. *)
Lemma step3_spec src cr path w r w' :
  step3 src cr (kind src) path w = (r, w') ->
  localfs w' = localfs w /\ credentials w' = credentials w /\
  exists cs, calls w' = calls w ++ cs /\
    (forall l, location src cr path = Some l -> forallb (retires l) cs = true) /\
    upload_ok cs = false /\
    (supported src = true -> cs <> []) /\
    match r with
    | Val _ =>
        supported src = true -> existsb is_delete_ok cs = false ->
        kind src = "s3"
    | Throw _ => existsb is_delete_ok cs = false
    end /\
    remote w' = if existsb is_delete_ok cs
                then match location src cr path with
                     | Some l => delete l (remote w)
                     | None => remote w
                     end
                else remote w.
Proof.
  unfold step3, location, supported. intros H. unfold_prims. world_simpl.
  unfold s3_session, createS3Client in *. world_simpl. cbn [is_bucket] in H.
  split_run H.
  all: inversion H; subst; clear H; world_simpl.
  all: split; [reflexivity |]; split; [reflexivity |].
  all: log_ext.
  all: repeat split; try reflexivity; try discriminate; try done.
  all: try (intros ? [= <-]; cbn; rewrite ?bool_decide_eq_true_2; reflexivity).
  intros _ _. by apply String.eqb_eq.
Qed.

Lemma step3'_spec req cr w r w' :
  step3' req cr w = (r, w') ->
  localfs w' = localfs w /\ credentials w' = credentials w /\
  exists cs, calls w' = calls w ++ cs /\
    (forall l, location (srcConnection req) cr (srcPath req) = Some l ->
               forallb (retires l) cs = true) /\
    upload_ok cs = false /\
    (isMove req = true -> supported (srcConnection req) = true -> cs <> []) /\
    (isMove req = false -> cs = [] /\ remote w' = remote w) /\
    match r with
    | Val _ =>
        isMove req = true -> supported (srcConnection req) = true ->
        existsb is_delete_ok cs = false -> kind (srcConnection req) = "s3"
    | Throw _ => existsb is_delete_ok cs = false
    end /\
    remote w' = if existsb is_delete_ok cs
                then match location (srcConnection req) cr (srcPath req) with
                     | Some l => delete l (remote w)
                     | None => remote w
                     end
                else remote w.
Proof.
  unfold step3'. destruct (isMove req).
  - intros (Hl & Hc & cs & Hcs & Hre & Hup & Hne & Hok & Hrem)%step3_spec.
    repeat split; try done. exists cs. repeat split; try done.
    destruct r; [intros _; exact Hok | exact Hok].
  - intros [= <- <-]. repeat split; try done. exists [].
    rewrite app_nil_r. repeat split; done.
Qed.

(** ** The handler *)

Lemma cleanup_run tmp w : cleanup tmp w = (Val tt, cleaned tmp w).
Proof.
  unfold cleanup, cleaned. unfold_prims. case_bool_decide as Hs; [reflexivity |].
  rewrite delete_id; [by destruct w |].
  by apply eq_None_not_Some.
Qed.

(** The handler runs the three steps in order, stops at the first one that
    throws, and removes the staging file in either case. *)
Lemma transfer_run d n u req w :
  isDir req = false ->
  let tmp := tempFile d n (fileName req) in
  let srcCreds :=
    getConnectionCredentials (connId (srcConnection req)) u (credentials w) in
  let src := srcConnection req in
  let dst := dstConnection req in
  match step1 src srcCreds (kind src) (srcPath req) tmp w with
  | (Throw msg, w1) =>
      transfer d n u req w = (Val (Error 500 msg), cleaned tmp w1)
  | (Val _, w1) =>
      let dstCreds := getConnectionCredentials (connId dst) u (credentials w1) in
      match step2 dst dstCreds (kind dst) tmp (dstPath req) w1 with
      | (Throw msg, w2) =>
          transfer d n u req w = (Val (Error 500 msg), cleaned tmp w2)
      | (Val _, w2) =>
          match step3' req srcCreds w2 with
          | (Throw msg, w3) =>
              transfer d n u req w = (Val (Error 500 msg), cleaned tmp w3)
          | (Val _, w3) =>
              transfer d n u req w =
              (Val (Success (if isMove req then "Arquivo movido com sucesso"
                             else "Arquivo copiado com sucesso")),
               cleaned tmp w3)
          end
      end
  end.
Proof.
  intros Hd. cbv zeta. unfold transfer. rewrite Hd.
  unfold try_catch, bind, readCredentials, ret.
  destruct (step1 _ _ _ _ _ w) as [[[]|msg] w1]; [| by rewrite cleanup_run].
  destruct (step2 _ _ _ _ _ w1) as [[[]|msg] w2]; [| by rewrite cleanup_run].
  destruct (step3' _ _ w2) as [[[]|msg] w3]; by rewrite cleanup_run.
Qed.

(** Follow a run of the handler through its steps, with what each step
    guarantees, and rewrite the handler's result in the goal. *)
Ltac run_transfer Hd :=
  let Hrun := fresh "Hrun" in
  match goal with
  | |- context [transfer ?d ?n ?u ?req ?w] =>
      pose proof (transfer_run d n u req w Hd) as Hrun; cbv zeta in Hrun
  end;
  match type of Hrun with
  | context [step1 ?a ?b ?c ?e ?f ?g] =>
      let H1 := fresh "H1" in
      destruct (step1 a b c e f g) as [[[]|?msg] ?w1] eqn:H1;
      apply step1_spec in H1
        as (?Hr1 & ?Hc1 & ?Hl1 & (?cs1 & ?Hcs1 & ?Hf1 & ?Hg1) & ?Ho1)
  end;
  [ match type of Hrun with
    | context [step2 ?a ?b ?c ?e ?f ?g] =>
        let H2 := fresh "H2" in
        destruct (step2 a b c e f g) as [[[]|?msg] ?w2] eqn:H2;
        apply step2_spec in H2
          as (?Hl2 & ?Hc2 & (?cs2 & ?Hcs2 & ?Hf2 & ?Ha2 & ?Hu2) & ?Ho2)
    end;
    [ match type of Hrun with
      | context [step3' ?a ?b ?c] =>
          let H3 := fresh "H3" in
          destruct (step3' a b c) as [[[]|?msg] ?w3] eqn:H3;
          apply step3'_spec in H3
            as (?Hl3 & ?Hc3 & ?cs3 & ?Hcs3 & ?Hre3 & ?Hu3 & ?Hne3 & ?Hcp3
                & ?Hd3 & ?Ho3)
      end
    | ]
  | ];
  rewrite Hrun; clear Hrun; cbn [fst snd].

(** The handler always answers, and the local files it leaves are the ones
    it found without the staging path. *)
Lemma transfer_settles d n u req w :
  isDir req = false ->
  (exists resp, fst (transfer d n u req w) = Val resp) /\
  localfs (snd (transfer d n u req w)) =
    delete (tempFile d n (fileName req)) (localfs w).
Proof.
  intros Hd. run_transfer Hd.
  all: (split; [by eexists |]).
  all: unfold cleaned; cbn [localfs set_localfs].
  all: rewrite ?Hl3, ?Hl2; by apply localfs_staged.
Qed.

(** ** Move safety *)

(** C1 on a move out of a bucket.  The keys stored for the bucket may
    read [archive/report.pdf] but not delete it.  The download and the
    upload to ServerA go through, and [DeleteObjectsCommand] returns an
    answer that names the key as not deleted, which the handler does not
    read: the move is answered with success, the delete was issued and
    reported no success, and the report is both in [/docs] of ServerA and
    in the bucket, where the claim expects the source of a successful move
    to be absent. *)
Theorem move_answers_success_with_source_in_place :
  let out := transfer "/srv/app" 1700000000000 "u1" Scenarios.restoreReport
               Scenarios.archiveWorld in
  let cs := issued Scenarios.archiveWorld (snd out) in
  fst out = Val (Success "Arquivo movido com sucesso") /\
  upload_ok cs = true /\
  existsb is_delete cs = true /\
  existsb is_delete_ok cs = false /\
  remote (snd out) !! Scenarios.docsReport = Some Scenarios.report /\
  remote (snd out) !! Scenarios.archiveReport = Some Scenarios.report.
Proof. vm_compute. split_and!; reflexivity. Qed.

(** ** The staging file *)

(** C2.  When every call it makes returns or throws, a transfer settles with
    an answer, and the local files it leaves are the ones it found without its
    staging file: a request for a
    folder creates none, any other request has its staging path removed,
    whether it ends in success, in a failed download, in a failed upload
    or in a failed delete. *)
Theorem staging_file_removed d n u req w :
  let out := transfer d n u req w in
  (exists resp, fst out = Val resp) /\
  localfs (snd out) =
    (if isDir req then localfs w
     else delete (tempFile d n (fileName req)) (localfs w)) /\
  localfs (snd out) !! tempFile d n (fileName req) =
    (if isDir req then localfs w !! tempFile d n (fileName req) else None).
Proof.
  cbv zeta. destruct (isDir req) eqn:Hd.
  - unfold transfer. rewrite Hd. split; [by eexists | done].
  - destruct (transfer_settles d n u req w Hd) as [Hresp Hfs].
    split; [done |]. split; [done |]. rewrite Hfs. apply lookup_delete_eq.
Qed.

(** ** Folders *)

(** C5.  A request for a folder is answered with status 400 and the
    message that folder transfers are not supported, in the world it was
    made in: no local file is created and no call is added to the log. *)
Theorem transfer_rejects_directories d n u req w :
  isDir req = true ->
  transfer d n u req w =
  (Val (Error 400 "Transferência de pastas entre servidores não é suportada ainda"),
   w).
Proof. intros Hd. unfold transfer. by rewrite Hd. Qed.

Lemma transfer_rejects_directories_witness :
  transfer "/srv/app" 1700000000000 "u1" Scenarios.moveFolder Scenarios.world0 =
  (Val (Error 400 "Transferência de pastas entre servidores não é suportada ainda"),
   Scenarios.world0).
Proof.
  apply (transfer_rejects_directories "/srv/app" 1700000000000 "u1"
           Scenarios.moveFolder Scenarios.world0).
  reflexivity.
Defined.

(** ** Kinds without a branch *)

(** C10.  The handler has branches for the kinds [sftp], [ftp] and [s3]
    only.  A request whose source is of another kind is answered with
    status 500 and the message naming the source kind, without a single
    call.  A request whose source is supported and whose destination is not
    is answered with status 500, and with the message naming the destination
    kind once the download has succeeded; no upload is attempted.  In both
    cases every remote store is as before and the staging file is gone. *)
Theorem transfer_unsupported_kind d n u req w :
  isDir req = false ->
  let tmp := tempFile d n (fileName req) in
  let out := transfer d n u req w in
  let cs := issued w (snd out) in
  (supported (srcConnection req) = false ->
     fst out = Val (Error 500 ("Tipo de conexão origem não suportado: "
                               +:+ JS.show (connType (srcConnection req)))) /\
     cs = [] /\
     remote (snd out) = remote w /\
     localfs (snd out) = delete tmp (localfs w))
  /\
  (supported (srcConnection req) = true ->
   supported (dstConnection req) = false ->
     (exists msg, fst out = Val (Error 500 msg)) /\
     (existsb is_get_ok cs = true ->
      fst out = Val (Error 500 ("Tipo de conexão destino não suportado: "
                                +:+ JS.show (connType (dstConnection req))))) /\
     existsb is_put cs = false /\
     remote (snd out) = remote w /\
     localfs (snd out) = delete tmp (localfs w)).
Proof.
  intros Hd. cbv zeta.
  destruct (transfer_settles d n u req w Hd) as [_ Hfs]. rewrite Hfs. clear Hfs.
  split.
  - intros Hs. run_transfer Hd.
    1,2,3: destruct Ho1 as (l & data & Hloc & _);
           apply location_supported in Hloc; congruence.
    destruct (Ho1 Hs) as [-> ->]. repeat split; try done.
    unfold issued, cleaned; cbn. by rewrite drop_all.
  - intros Hs Ht. run_transfer Hd.
    1,2: destruct Ho2 as (l & data & Hloc & _);
         apply location_supported in Hloc; congruence.
    + destruct Ho2 as [_ Hu]. destruct (Hu Ht) as [-> ->].
      rewrite issued_cleaned, (issued_app _ _ _ Hcs1).
      destruct (fetch_calls _ Hf1) as (_ & Hp & _).
      repeat split; try done. by eexists.
    + rewrite issued_cleaned, (issued_app _ _ _ Hcs1).
      destruct (fetch_calls _ Hf1) as (_ & Hp & _).
      repeat split; try done; [by eexists | congruence].
Qed.

(** A transfer from an SMB share, and one from ServerA to an SMB share. *)
Lemma transfer_unsupported_kind_witness :
  fst (transfer "/srv/app" 1700000000000 "u1" Scenarios.fromNas Scenarios.world0)
    = Val (Error 500 "Tipo de conexão origem não suportado: SMB") /\
  fst (transfer "/srv/app" 1700000000000 "u1" Scenarios.toNas Scenarios.world0)
    = Val (Error 500 "Tipo de conexão destino não suportado: SMB") /\
  remote (snd (transfer "/srv/app" 1700000000000 "u1" Scenarios.toNas
                 Scenarios.world0)) = remote Scenarios.world0.
Proof.
  split; [| split].
  - refine (proj1 (proj1 (transfer_unsupported_kind "/srv/app" 1700000000000 "u1"
                     Scenarios.fromNas Scenarios.world0 _) _)); reflexivity.
  - refine (proj1 (proj2 (proj2 (transfer_unsupported_kind "/srv/app"
                     1700000000000 "u1" Scenarios.toNas Scenarios.world0 _) _ _)) _).
    + reflexivity.
    + reflexivity.
    + reflexivity.
    + vm_compute; reflexivity.
  - refine (proj1 (proj2 (proj2 (proj2 (proj2 (transfer_unsupported_kind "/srv/app"
                     1700000000000 "u1" Scenarios.toNas Scenarios.world0 _) _ _)))));
      reflexivity.
Defined.

(** ** Staging paths of transfers that start together *)

(** C8.  The staging path is built from the clock and the file name alone.
    Two different transfers of files named [report.pdf] that start in the
    same millisecond get the same path; when the download of the second
    falls between the download and the upload of the first, the first
    uploads the bytes of the second to its destination. *)
Theorem staging_path_collision :
  let d := "/srv/app" in
  let now := 1700000000000 in
  let first := Scenarios.copyMinutes in
  let second := Scenarios.moveReport in
  let tmp1 := tempFile d now (fileName first) in
  let tmp2 := tempFile d now (fileName second) in
  let w1 := snd (step1 (srcConnection first) None (kind (srcConnection first))
                   (srcPath first) tmp1 Scenarios.world0) in
  let w2 := snd (step1 (srcConnection second) (Some Scenarios.bob)
                   (kind (srcConnection second)) (srcPath second) tmp2 w1) in
  let w3 := snd (step2 (dstConnection first) None (kind (dstConnection first))
                   tmp1 (dstPath first) w2) in
  first <> second /\
  tmp1 = tmp2 /\
  remote Scenarios.world0 !! Scenarios.pubReport = Some Scenarios.minutes /\
  remote w3 !! Scenarios.incomingReport = Some Scenarios.report /\
  Scenarios.report <> Scenarios.minutes.
Proof. cbv zeta. split_and!; [discriminate | reflexivity .. | discriminate]. Qed.

End TransferProofs.

Module S3RenameProofs.
Import Env S3Rename.
Open Scope list_scope.

(** C4.  A rename that carries a bucket, both keys and credentials (its own
    or the stored ones) issues the copy of the old key to the new key as its
    first call; every other request is answered with status 400 and issues
    nothing.  The delete of the old key is issued only after the copy
    reported success, with the same client, and nothing else is ever issued.
    After a copy that failed no object has changed.  After a copy that
    reported success the new key holds the content the old key had; when
    the delete reported no success (it threw, or its answer named the key
    as not deleted) the old key still holds that content too, and when it
    reported success only the old key is removed. *)
Theorem s3_rename_copies_before_delete u req w :
  let out := rename u req w in
  let cs := issued w (snd out) in
  let after := remote (snd out) in
  let old := JS.or_empty (oldKey req) in
  let new := JS.or_empty (newKey req) in
  let b := S3Bucket (host req) (bucket req) in
  let keys := resolve u req (credentials w) in
  if (JS.truthy_str keys.1 && JS.truthy_str keys.2
      && JS.truthy_str (bucket req) && JS.truthy_str (oldKey req)
      && JS.truthy_str (newKey req))%bool
  then
    exists s, endpoint s = b /\ user s = keys.1 /\ pass s = keys.2 /\
      ((cs = [CCopy s old new false] /\ after = remote w /\
        exists msg, fst out = Val (Error 500 msg))
       \/
       (exists data ok,
          cs = [CCopy s old new true; CDelete s old ok] /\
          remote w !! (b, old) = Some data /\
          if ok then
            after = delete (b, old) (<[(b, new) := data]> (remote w)) /\
            fst out = Val (Success "Arquivo renomeado com sucesso")
          else
            after = <[(b, new) := data]> (remote w) /\
            after !! (b, old) = Some data /\ after !! (b, new) = Some data /\
            ((exists msg, fst out = Val (Error 500 msg)) \/
             fst out = Val (Success "Arquivo renomeado com sucesso"))))
  else
    cs = [] /\ snd out = w /\
    fst out = Val (Error 400 "Credenciais, bucket e keys são obrigatórios").
Proof.
  cbv zeta. unfold rename.
  destruct (resolve u req (credentials w)) as [accessKeyId secretAccessKey].
  cbn [fst snd].
  destruct (JS.truthy_str accessKeyId), (JS.truthy_str secretAccessKey),
    (JS.truthy_str (bucket req)), (JS.truthy_str (oldKey req)),
    (JS.truthy_str (newKey req)); cbn [negb orb andb fst snd].
  all: try (unfold issued; rewrite drop_all; done).
  exists (createS3Client (host req) accessKeyId secretAccessKey (region req)
            (bucket req)).
  split; [reflexivity |]. split; [reflexivity |]. split; [reflexivity |].
  unfold try_catch. unfold_prims. world_simpl. unfold createS3Client. world_simpl.
  cbn [is_bucket].
  repeat match goal with
  | |- context [match hd NoFault ?p with _ => _ end] =>
      destruct (hd NoFault p) as [|? ?|?]; world_simpl
  | |- context [match ?m !! ?k with _ => _ end] =>
      let E := fresh "E" in destruct (m !! k) eqn:E; world_simpl
  end.
  all: unfold issued; world_simpl; rewrite <- ?app_assoc, drop_app_length;
       cbn [app].
  all: try (left; split_and!; [reflexivity | reflexivity | by eexists]).
  all: right; eexists _, _; split; [reflexivity |]; split; [reflexivity |].
  all: cbn beta iota.
  all: split_and!; try reflexivity; try apply lookup_insert_eq.
  all: try (left; by eexists).
  all: try (right; reflexivity).
  all: destruct (decide ((S3Bucket (host req) (bucket req), JS.or_empty (newKey req))
                      = (S3Bucket (host req) (bucket req), JS.or_empty (oldKey req))))
         as [Heq|Hne];
       [rewrite Heq; apply lookup_insert_eq
       | rewrite lookup_insert_ne by done; assumption].
Qed.

(** Scenario D: the copy of [old.txt] to [new.txt] goes through and the
    delete of [old.txt] is refused, once by an error the client throws and
    once inside the answer of [DeleteObjectsCommand]. *)
Lemma s3_rename_scenario_d :
  (exists data,
     remote Scenarios.oldInBucket !! Scenarios.oldTxt = Some data /\
     remote (snd (rename "u1" Scenarios.renameOld
                    (set_plan [NoFault; Fail "AccessDenied" None]
                       Scenarios.oldInBucket))) !! Scenarios.oldTxt = Some data /\
     remote (snd (rename "u1" Scenarios.renameOld
                    (set_plan [NoFault; Fail "AccessDenied" None]
                       Scenarios.oldInBucket))) !! Scenarios.newTxt = Some data) /\
  (exists data,
     remote Scenarios.oldInBucket !! Scenarios.oldTxt = Some data /\
     remote (snd (rename "u1" Scenarios.renameOld
                    (set_plan [NoFault; Reported "AccessDenied"]
                       Scenarios.oldInBucket))) !! Scenarios.oldTxt = Some data /\
     remote (snd (rename "u1" Scenarios.renameOld
                    (set_plan [NoFault; Reported "AccessDenied"]
                       Scenarios.oldInBucket))) !! Scenarios.newTxt = Some data).
Proof.
  split.
  - pose proof (s3_rename_copies_before_delete "u1" Scenarios.renameOld
                  (set_plan [NoFault; Fail "AccessDenied" None]
                     Scenarios.oldInBucket)) as H.
    cbv zeta in H.
    match type of H with
    | if ?c then _ else _ => replace c with true in H by (vm_compute; reflexivity)
    end.
    destruct H as (s & _ & _ & _ & [(Hcs & _) | (data & ok & Hcs & Hw & H)]);
      [vm_compute in Hcs; discriminate Hcs |].
    assert (ok = false) as -> by (vm_compute in Hcs; congruence).
    destruct H as (_ & Ho & Hn & _). exists data. split_and!; [exact Hw | exact Ho | exact Hn].
  - pose proof (s3_rename_copies_before_delete "u1" Scenarios.renameOld
                  (set_plan [NoFault; Reported "AccessDenied"]
                     Scenarios.oldInBucket)) as H.
    cbv zeta in H.
    match type of H with
    | if ?c then _ else _ => replace c with true in H by (vm_compute; reflexivity)
    end.
    destruct H as (s & _ & _ & _ & [(Hcs & _) | (data & ok & Hcs & Hw & H)]);
      [vm_compute in Hcs; discriminate Hcs |].
    assert (ok = false) as -> by (vm_compute in Hcs; congruence).
    destruct H as (_ & Ho & Hn & _). exists data. split_and!; [exact Hw | exact Ho | exact Hn].
Defined.

End S3RenameProofs.

Module SftpProofs.
Import Env Sftp.

(** C6, as the handlers have it.  In the list handler a request that
    carries a user name and a password connects with them, whatever the
    credential file holds, and a session that uses other credentials than
    the ones of the request uses the stored ones of the connection, which
    happens only when the request lacks a user name or a password.  The
    upload handler opens a session with the stored credentials of the
    connection only, and a user name and password in the request change
    nothing. *)
Theorem sftp_credentials u req store :
  (JS.truthy_str (username req) = true -> JS.truthy_str (password req) = true ->
   list_connect u req store = list_connect u req ∅ /\
   forall cfg, list_connect u req store = Connects cfg ->
               cfgUsername cfg = username req /\ cfgPassword cfg = password req)
  /\
  (forall cfg, list_connect u req store = Connects cfg ->
     (cfgUsername cfg = username req /\ cfgPassword cfg = password req) \/
     ((JS.truthy_str (username req) = false \/
       JS.truthy_str (password req) = false) /\
      exists stored, stored_for u req store = Some stored /\
                     cfgUsername cfg = Some (Env.username stored) /\
                     cfgPassword cfg = Some (Env.password stored)))
  /\
  (forall cfg, upload_connect u req store = Connects cfg ->
     exists stored, stored_for u req store = Some stored /\
                    cfgUsername cfg = Some (Env.username stored) /\
                    cfgPassword cfg = Some (Env.password stored))
  /\
  (forall usr pw,
     upload_connect u (with_explicit usr pw req) store = upload_connect u req store).
Proof.
  unfold stored_for. split_and!.
  - intros Hu Hp. unfold list_connect. rewrite Hu, Hp, andb_false_r.
    split; [done |].
    destruct (_ || _ || _)%bool; [done |]. by intros cfg [= <-].
  - intros cfg. unfold list_connect.
    destruct (JS.truthy_str (connectionId req)); cbn [andb].
    + destruct (negb (JS.truthy_str (username req))
                || negb (JS.truthy_str (password req)))%bool eqn:Hx.
      * destruct (getConnectionCredentials _ _ _) as [stored|].
        -- destruct (_ || _ || _)%bool; [done |]. intros [= <-]. right. split.
           ++ apply orb_true_iff in Hx as [Hx|Hx]; apply negb_true_iff in Hx; auto.
           ++ by exists stored.
        -- destruct (_ || _ || _)%bool; [done |]. intros [= <-]. by left.
      * destruct (_ || _ || _)%bool; [done |]. intros [= <-]. by left.
    + destruct (_ || _ || _)%bool; [done |]. intros [= <-]. by left.
  - intros cfg. unfold upload_connect.
    destruct (negb (JS.truthy_str (file req))); [done |].
    destruct (JS.truthy_str (connectionId req)).
    + destruct (getConnectionCredentials _ _ _) as [stored|].
      * destruct (_ || _ || _)%bool; [done |]. intros [= <-]. by exists stored.
      * cbn. by rewrite orb_true_r.
    + cbn. by rewrite orb_true_r.
  - done.
Qed.

(** A list request with the credentials of alice connects as alice, with
    or without the credentials stored for the connection. *)
Lemma sftp_credentials_witness :
  list_connect "u1" Scenarios.explicitRequest (credentials Scenarios.world0) =
  list_connect "u1" Scenarios.explicitRequest ∅.
Proof.
  refine (proj1 (proj1 (sftp_credentials "u1" Scenarios.explicitRequest
                          (credentials Scenarios.world0)) _ _)); reflexivity.
Defined.

(** C6 fails on the upload handler: the request carries the user name and
    password of alice, and the session is opened as bob, whose credentials
    are stored for the connection. *)
Lemma upload_ignores_explicit_credentials :
  exists cfg,
    JS.truthy_str (username Scenarios.explicitRequest) = true /\
    JS.truthy_str (password Scenarios.explicitRequest) = true /\
    upload_connect "u1" Scenarios.explicitRequest (credentials Scenarios.world0)
      = Connects cfg /\
    cfgUsername cfg = Some "bob" /\
    cfgUsername cfg <> username Scenarios.explicitRequest /\
    cfgPassword cfg <> password Scenarios.explicitRequest.
Proof. eexists. split_and!; [reflexivity .. | discriminate | discriminate]. Qed.

End SftpProofs.

Module ListingProofs.
Import Env Listing.
Open Scope list_scope.

(** ** Sorting with a consistent comparison function *)

Section SortFacts.
Context {A : Type} (compareFn : A -> A -> Z).
Hypothesis total : forall a b, 0 < compareFn a b -> compareFn b a <= 0.
Hypothesis trans : forall a b c,
  compareFn a b <= 0 -> compareFn b c <= 0 -> compareFn a c <= 0.

Lemma insert_perm x l : insert compareFn x l ≡ₚ x :: l.
Proof.
  induction l as [|y l IH]; cbn [insert]; [done |].
  destruct (Z.leb _ _); [done |]. rewrite IH. apply Permutation_swap.
Qed.

Lemma sort_perm l : sort compareFn l ≡ₚ l.
Proof.
  induction l as [|x l IH]; cbn; [done |].
  fold (sort compareFn l). by rewrite insert_perm, IH.
Qed.

Lemma insert_sorted x l :
  StronglySorted (precedes compareFn) l ->
  StronglySorted (precedes compareFn) (insert compareFn x l).
Proof.
  induction 1 as [|y l Hl IH Hy]; cbn [insert].
  - repeat constructor.
  - destruct (Z.leb (compareFn x y) 0) eqn:E.
    + apply Z.leb_le in E. constructor; [by constructor |].
      constructor; [done |].
      eapply Forall_impl; [exact Hy |]. intros z Hz. by eapply trans.
    + apply Z.leb_gt in E. constructor; [done |].
      rewrite insert_perm. constructor; [by apply total | done].
Qed.

Lemma sort_sorted l : StronglySorted (precedes compareFn) (sort compareFn l).
Proof.
  induction l as [|x l IH]; cbn; [constructor |].
  by apply insert_sorted.
Qed.
End SortFacts.

Lemma StronglySorted_weaken {A} (R R' : A -> A -> Prop) l :
  (forall a b, R a b -> R' a b) -> StronglySorted R l -> StronglySorted R' l.
Proof.
  intros HR. induction 1 as [|x l Hl IH Hx]; constructor; [done |].
  eapply Forall_impl; [exact Hx |]. intros y. apply HR.
Qed.

(** ** The SFTP listing *)

Section SftpListing.
Variable localeCompare : string -> string -> Z.
Variable toISOString : Z -> string.
Variable freshId : nat -> string.
Hypothesis total :
  forall a b, 0 < localeCompare a b -> localeCompare b a <= 0.
Hypothesis trans : forall a b c,
  localeCompare a b <= 0 -> localeCompare b c <= 0 -> localeCompare a c <= 0.

Lemma by_folder_then_name_before a b :
  by_folder_then_name localeCompare a b <= 0 <->
  listed_before localeCompare a b.
Proof.
  unfold by_folder_then_name, listed_before.
  destruct (is_folder a), (is_folder b); cbn; split; try lia;
    intuition (try done; try lia).
Qed.

(** Folders stand before files, and inside each group the names are in
    the order of [localeCompare]. *)
Lemma sftp_list_ordered targetPath entries :
  StronglySorted (listed_before localeCompare)
    (sftp_list localeCompare toISOString freshId targetPath entries).
Proof.
  unfold sftp_list.
  eapply StronglySorted_weaken; cycle 1.
  - apply sort_sorted.
    + intros a b. unfold by_folder_then_name.
      destruct (is_folder a), (is_folder b); cbn; try lia; apply total.
    + intros a b c. unfold by_folder_then_name.
      destruct (is_folder a), (is_folder b), (is_folder c); cbn; try lia;
        apply trans.
  - intros a b. apply by_folder_then_name_before.
Qed.

(** The listing holds exactly the entries whose name has no leading dot. *)
Lemma sftp_list_entries targetPath entries :
  sftp_list localeCompare toISOString freshId targetPath entries ≡ₚ
  filter (fun f => visible f = true)
    (imap (sftp_item toISOString freshId targetPath) entries).
Proof. unfold sftp_list. apply sort_perm. Qed.
End SftpListing.

(** The directory of Scenario C, listed over SFTP. *)
Example sftp_list_scenario_c :
  map name (sftp_list Scenarios.byCodeUnit (fun _ => "") (fun _ => "")
              "/home/user" Scenarios.homeUserSftp)
  = ["Alpha"; "zeta.txt"].
Proof. reflexivity. Qed.

(** ** The local listing *)

(** The local handler answers with the names in the order [readdirSync]
    gave them, hidden ones included, whenever every entry can be read. *)
Lemma fs_list_names fs queryPath stats names :
  let targetPath :=
    if JS.truthy_str queryPath then JS.or_empty queryPath else "." in
  statSync fs targetPath = Some stats ->
  isDirectory stats = true ->
  readdirSync fs targetPath = Val names ->
  Forall (fun n => is_Some (statSync fs (JS.path_join targetPath n))) names ->
  exists items, fs_list fs queryPath = Items items /\ map name items = names.
Proof.
  cbv zeta. intros Hstat Hdir Hread Hall. unfold fs_list.
  rewrite Hstat, Hdir, Hread. cbn [negb]. eexists. split; [reflexivity |].
  clear Hread. induction Hall as [|n names [st Hn] _ IH]; [done |].
  cbn [omap list_omap]. unfold local_item at 1. rewrite Hn. cbn [map name].
  f_equal. exact IH.
Qed.

(** C3 on the local handler, at Scenario C: the handler answers with the
    three entries in the order the directory was read, the folder [Alpha]
    after the file [zeta.txt] and the entry [.hidden] included, where the
    claim expects [Alpha] and then [zeta.txt]. *)
Theorem local_listing_keeps_directory_order :
  exists items,
    fs_list Scenarios.homeUser (Some "/home/user") = Items items /\
    map name items = ["zeta.txt"; "Alpha"; ".hidden"] /\
    map is_folder items = [false; true; false] /\
    map name items <> ["Alpha"; "zeta.txt"].
Proof. eexists. split_and!; [reflexivity .. | discriminate]. Qed.

End ListingProofs.

Module FileExplorerProofs.
Import TransferContext FileExplorer.
Open Scope list_scope.

(** ** Copy inside one FTP server *)

Lemma setTransferFailed_last i msg prev t :
  id t = i ->
  exists t', t' ∈ setTransferFailed i msg (prev ++ [t]) /\
             id t' = i /\ failed t' = true /\ status t' = msg.
Proof.
  intros Hi. unfold setTransferFailed. rewrite map_app. cbn [map].
  rewrite Hi, String.eqb_refl.
  eexists. split; [apply elem_of_app; right; by apply list_elem_of_singleton |].
  by cbn.
Qed.

(** C9.  A copy whose source and destination are one FTP connection,
    unless the question about an existing item of the same name is due
    first, lists a transfer and marks it failed with the message that FTP
    connections do not support copying, without a request having been
    sent. *)
Theorem ftp_copy_fails_before_any_request toLowerCase now rnd sel ui
    target conn dest :
  targetActionFile sel = Some target ->
  activeConnection sel = Some conn ->
  destConnection sel = Some dest ->
  connType conn = FTP ->
  connId dest = connId conn ->
  selectedAction sel = Some copy ->
  (conflictAction sel = None ->
   Forall (fun f => ~ (toLowerCase (name f) = toLowerCase (name target) /\
                       type f = type target)) (destFiles sel)) ->
  exists ui',
    handleConfirmAction toLowerCase now rnd sel ui =
      Running ("transfer_" +:+ pretty now +:+ "_" +:+ rnd) ui' /\
    requests ui' = requests ui /\
    exists t, t ∈ transfers ui' /\
              id t = "transfer_" +:+ pretty now +:+ "_" +:+ rnd /\
              failed t = true /\ status t = refused.
Proof.
  intros Ht Ha Hd Hty Hsame Hact Hfree. unfold handleConfirmAction.
  rewrite Ht, Ha, Hd, Hact, Hsame, String.eqb_refl.
  match goal with
  | |- context [if (?e && ?c)%bool then _ else _] =>
      assert ((e && c)%bool = false) as ->
  end.
  { destruct (conflictAction sel) as [a|] eqn:Ea.
    - rewrite bool_decide_eq_true_2 by done. apply andb_false_r.
    - rewrite andb_true_r. specialize (Hfree eq_refl).
      apply not_true_is_false. intros (f & Hin & [Hn Hty']%andb_true_iff)%existsb_exists.
      rewrite Forall_forall in Hfree. apply (Hfree f); [by apply list_elem_of_In |].
      split; [by apply String.eqb_eq |]. by destruct (type f), (type target). }
  unfold dispatch. rewrite Hty. cbn [isCloudProvider negb setInterval].
  unfold on_error, clear_registered.
  cbn [transferIntervalRef set_ref set_transfers transfers requests
       nextHandle intervals].
  rewrite lookup_insert_eq.
  cbn [transferIntervalRef set_ref set_transfers transfers requests
       nextHandle intervals clearInterval].
  eexists. split; [reflexivity |]. cbn [requests transfers].
  split; [done |]. unfold addTransfer. by apply setTransferFailed_last.
Qed.

(** The copy of [report.pdf] from [/docs] to [/archive] of one FTP server,
    where no item of that name exists. *)
Lemma ftp_copy_fails_witness :
  exists ui',
    handleConfirmAction JS.toLowerCase 1700000000000 "k3j9x2m1q"
      (Scenarios.selection copy) empty_ui =
      Running "transfer_1700000000000_k3j9x2m1q" ui' /\
    requests ui' = [] /\
    exists t, t ∈ transfers ui' /\
              id t = "transfer_1700000000000_k3j9x2m1q" /\
              failed t = true /\ status t = refused.
Proof.
  apply (ftp_copy_fails_before_any_request JS.toLowerCase 1700000000000 "k3j9x2m1q"
           (Scenarios.selection copy) empty_ui
           Scenarios.reportFile Scenarios.ftpServer Scenarios.ftpServer);
    try reflexivity.
  intros _. constructor.
Defined.

(** ** Progress *)

Lemma capped_update i i' v ts :
  (v <= 95)%Q -> capped i ts -> capped i (updateTransferProgress i' v ts).
Proof.
  intros Hv. unfold capped, updateTransferProgress. rewrite List.Forall_map.
  intros Hts; eapply Forall_impl; [exact Hts |]; cbn beta. intros t Ht.
  by destruct (String.eqb (id t) i').
Qed.

Lemma capped_fire i cb r ts : capped i ts -> capped i (fire cb r ts).2.
Proof.
  intros Hts. destruct cb as [i'|i' cur]; cbn [fire].
  - cbn [snd]. apply capped_update; [apply Q.le_min_l | done].
  - destruct (Qle_bool 95 cur); cbn [snd]; [done |].
    apply capped_update; [apply Q.le_min_r | done].
Qed.

Lemma capped_failed i i' msg ts :
  capped i ts -> capped i (setTransferFailed i' msg ts).
Proof.
  unfold capped, setTransferFailed. rewrite List.Forall_map.
  intros Hts; eapply Forall_impl; [exact Hts |]; cbn beta. intros t Ht.
  by destruct (String.eqb (id t) i').
Qed.

Lemma capped_complete i i' ts :
  i' <> i -> capped i ts -> capped i (completeTransfer i' ts).
Proof.
  intros Hne. unfold capped, completeTransfer. rewrite List.Forall_map.
  intros Hts; eapply Forall_impl; [exact Hts |]; cbn beta. intros t Ht.
  destruct (String.eqb (id t) i') eqn:E; [| done].
  apply String.eqb_eq in E. cbn. congruence.
Qed.

Lemma capped_remove i i' ts : capped i ts -> capped i (removeTransfer i' ts).
Proof.
  unfold capped, removeTransfer. rewrite !Forall_forall.
  intros H t [_ Hin]%list_elem_of_filter. by apply H.
Qed.

Lemma transfers_clear_registered i ui :
  transfers (clear_registered i ui) = transfers ui.
Proof. unfold clear_registered. by destruct (_ !! _). Qed.

Lemma capped_step i e ui :
  completes i e = false ->
  capped i (transfers ui) -> capped i (transfers (step e ui)).
Proof.
  intros He Hui. destruct e as [h r|i' [msg|]|i']; cbn [step].
  - unfold fire_handle. destruct (list_find _ _) as [[k [h' cb]]|]; [| done].
    pose proof (capped_fire i cb r _ Hui) as Hf.
    by destruct (fire cb r (transfers ui)).
  - unfold on_error. cbn [transfers set_transfers].
    rewrite transfers_clear_registered. by apply capped_failed.
  - unfold on_success. cbn [transfers set_transfers].
    rewrite transfers_clear_registered. apply capped_complete; [| done].
    cbn in He. by apply String.eqb_neq.
  - cbn [transfers set_transfers]. by apply capped_remove.
Qed.

Lemma capped_shown i ui q :
  capped i (transfers ui) -> shown_progress i ui = Some q -> (q <= 95)%Q.
Proof.
  unfold shown_progress, capped. intros Hc Hs.
  destruct (head _) as [t|] eqn:Hh; [| done]. injection Hs as <-.
  apply head_Some_elem_of, list_elem_of_filter in Hh as [Hid Hin].
  rewrite Forall_forall in Hc. by apply Hc.
Qed.

(** Until the event that completes it, a transfer never shows more than 95
    percent. *)
Lemma reported_below_100 i events ui :
  forallb (fun e => negb (completes i e)) events = true ->
  capped i (transfers ui) ->
  Forall (fun p => forall q, p = Some q -> (q <= 95)%Q) (reported i events ui).
Proof.
  revert ui. induction events as [|e events IH]; intros ui He Hc; cbn [reported].
  - constructor.
  - cbn in He. apply andb_true_iff in He as [He Hes].
    apply negb_true_iff in He.
    pose proof (capped_step i e ui He Hc) as Hc'.
    constructor; [| by apply IH].
    intros q Hq. by apply (capped_shown i (step e ui)).
Qed.

(** C7 on a move inside one server.  Both intervals of the transfer fire
    every 500 ms; with [Math.random()] returning 0.5 at the first tick and
    0.25 at the second, the record shows 12.5, 12.5, 8.75 and 21.25 percent,
    then 100 when the request ends, and 12.5 again at the next tick, since
    the first interval is still running. *)
Theorem progress_goes_backwards :
  match handleConfirmAction JS.toLowerCase 1700000000000 "k3j9x2m1q"
          (Scenarios.selection move) empty_ui with
  | Running transferId ui =>
      let shown := omap (fun p => p) (reported transferId (Scenarios.ticks transferId) ui) in
      map Qred shown =
        [25 # 2; 25 # 2; 35 # 4; 85 # 4; 100 # 1; 25 # 2; 25 # 2]%Q /\
      non_decreasing shown = false /\
      non_decreasing (take 2 shown) = true
  | _ => False
  end.
Proof. vm_compute. split_and!; reflexivity. Qed.

End FileExplorerProofs.

(** ** Characters of printed numbers *)

Module TextProofs.
Import Text.

Lemma occurs_app c a b : occurs c (a +:+ b) = (occurs c a || occurs c b)%bool.
Proof. induction a as [|x a IH]; simpl; [done |]. by rewrite IH, orb_assoc. Qed.

Lemma length_append (a b : string) :
  String.length (a +:+ b) = (String.length a + String.length b)%nat.
Proof. induction a as [|c a IH]; simpl; [done |]. by rewrite IH. Qed.

Lemma append_inv_head (d a b : string) : d +:+ a = d +:+ b -> a = b.
Proof. induction d as [|c d IH]; cbn; [done |]. intros [= H]. by apply IH. Qed.

(** Two texts with the same separator after parts without it have equal
    parts. *)
Lemma split_at_first c a b f g :
  occurs c a = false -> occurs c b = false ->
  a +:+ String c f = b +:+ String c g -> a = b /\ f = g.
Proof.
  revert b. induction a as [|x a IH]; intros [|y b]; cbn.
  - by intros _ _ [= ->].
  - intros _ Hb [= <- _]. by rewrite Ascii.eqb_refl in Hb.
  - intros Ha _ [= -> _]. by rewrite Ascii.eqb_refl in Ha.
  - intros [_ Ha]%orb_false_iff [_ Hb]%orb_false_iff [= -> H].
    destruct (IH b Ha Hb H) as [-> ->]. done.
Qed.

Lemma pretty_N_go_occurs c x s :
  (forall n, pretty_N_char n <> c) ->
  occurs c s = false -> occurs c (pretty_N_go x s) = false.
Proof.
  intros Hc. revert s. induction (N.lt_wf_0 x) as [x _ IH]; intros s Hs.
  assert (x = 0 \/ 0 < x)%N as [->|?] by lia.
  - by rewrite pretty_N_go_0.
  - rewrite pretty_N_go_step by done. apply IH; [by apply N.div_lt |].
    cbn. rewrite Hs, orb_false_r. apply Ascii.eqb_neq, Hc.
Qed.

Lemma pretty_N_occurs c (x : N) :
  (forall n, pretty_N_char n <> c) -> occurs c (pretty x) = false.
Proof.
  intros Hc. unfold pretty, pretty_N. case_decide.
  - assert (Ascii.eqb "0" c = false) as E by apply Ascii.eqb_neq, (Hc 0%N).
    change (occurs c "0") with (Ascii.eqb "0" c || false)%bool. by rewrite E.
  - by apply pretty_N_go_occurs.
Qed.

(** A printed integer holds digits and the minus sign only. *)
Lemma pretty_Z_occurs c (x : Z) :
  (forall n, pretty_N_char n <> c) -> c <> "-"%char ->
  occurs c (pretty x) = false.
Proof.
  intros Hc Hm.
  destruct x as [|p|p]; [apply (pretty_N_occurs c 0%N Hc)
                        | apply (pretty_N_occurs c (Npos p) Hc) |].
  unfold pretty, pretty_Z. rewrite occurs_app.
  assert (Ascii.eqb "-" c = false) as E by (apply Ascii.eqb_neq; congruence).
  change (occurs c "-") with (Ascii.eqb "-" c || false)%bool. rewrite E.
  apply (pretty_N_occurs c (Npos p) Hc).
Qed.

Lemma no_digit_underscore n : pretty_N_char n <> "_"%char.
Proof. unfold pretty_N_char. by repeat case_match. Qed.

Lemma no_digit_colon n : pretty_N_char n <> ":"%char.
Proof. unfold pretty_N_char. by repeat case_match. Qed.

End TextProofs.

(** ** More on the transfer handler *)

Module TransferFrameProofs.
Import Env Transfer TransferProofs TransferLog Text TextProofs.
Open Scope list_scope.

(** A step reports success exactly when each of its calls did; a step that
    throws without a failed call is the one of a kind without a branch. *)
Lemma step1_calls src cr path tmp w r w' :
  step1 src cr (kind src) path tmp w = (r, w') ->
  forallb call_ok (issued w w') =
    match r with Val _ => true | Throw _ => negb (supported src) end.
Proof.
  unfold step1, supported, issued. intros H. unfold_prims. world_simpl.
  split_run H.
  all: inversion H; subst; clear H; world_simpl.
  all: rewrite <- ?app_assoc, ?drop_app_length, ?drop_all; reflexivity.
Qed.

Lemma step2_calls dst cr tmp path w r w' :
  step2 dst cr (kind dst) tmp path w = (r, w') ->
  forallb call_ok (issued w w') =
    match r with Val _ => true | Throw _ => negb (supported dst) end.
Proof.
  unfold step2, supported, issued. intros H. unfold_prims. world_simpl.
  split_run H.
  all: inversion H; subst; clear H; world_simpl.
  all: rewrite <- ?app_assoc, ?drop_app_length, ?drop_all; reflexivity.
Qed.

Lemma step3'_calls req cr w r w' :
  step3' req cr w = (r, w') ->
  match r with
  | Val _ =>
      forallb (fun c => call_ok c || bucket_delete c)%bool (issued w w') = true /\
      (isMove req = true -> supported (srcConnection req) = true ->
       forallb call_ok (issued w w') = true ->
       existsb is_delete_ok (issued w w') = true)
  | Throw _ => forallb call_ok (issued w w') = false
  end.
Proof.
  unfold step3', step3, supported, issued. intros H. unfold_prims. world_simpl.
  unfold s3_session, createS3Client in *. world_simpl. cbn [is_bucket] in H.
  destruct (isMove req).
  - split_run H.
    all: inversion H; subst; clear H; world_simpl.
    all: rewrite <- ?app_assoc, ?drop_app_length, ?drop_all.
    all: try reflexivity; try (split; [reflexivity | done]).
  - inversion H; subst. rewrite drop_all. done.
Qed.

(** Follow a run through its steps, keeping for each step what it
    guarantees and what its calls reported. *)
Ltac run_transfer_calls Hd :=
  let Hrun := fresh "Hrun" in
  match goal with
  | |- context [transfer ?d ?n ?u ?req ?w] =>
      pose proof (transfer_run d n u req w Hd) as Hrun; cbv zeta in Hrun
  end;
  match type of Hrun with
  | context [step1 ?a ?b ?c ?e ?f ?g] =>
      let H1 := fresh "H1" in
      destruct (step1 a b c e f g) as [[[]|?msg] ?w1] eqn:H1;
      pose proof (step1_calls _ _ _ _ _ _ _ H1) as ?Hk1;
      apply step1_spec in H1
        as (?Hr1 & ?Hc1 & ?Hl1 & (?cs1 & ?Hcs1 & ?Hf1 & ?Hg1) & ?Ho1)
  end;
  [ match type of Hrun with
    | context [step2 ?a ?b ?c ?e ?f ?g] =>
        let H2 := fresh "H2" in
        destruct (step2 a b c e f g) as [[[]|?msg] ?w2] eqn:H2;
        pose proof (step2_calls _ _ _ _ _ _ _ H2) as ?Hk2;
        apply step2_spec in H2
          as (?Hl2 & ?Hc2 & (?cs2 & ?Hcs2 & ?Hf2 & ?Ha2 & ?Hu2) & ?Ho2)
    end;
    [ match type of Hrun with
      | context [step3' ?a ?b ?c] =>
          let H3 := fresh "H3" in
          destruct (step3' a b c) as [[[]|?msg] ?w3] eqn:H3;
          pose proof (step3'_calls _ _ _ _ _ H3) as ?Hk3;
          apply step3'_spec in H3
            as (?Hl3 & ?Hc3 & ?cs3 & ?Hcs3 & ?Hre3 & ?Hu3 & ?Hne3 & ?Hcp3
                & ?Hd3 & ?Ho3)
      end
    | ]
  | ];
  rewrite Hrun; clear Hrun; cbn [fst snd].

Lemma issued_trans w w1 w2 cs1 cs2 :
  calls w1 = calls w ++ cs1 -> calls w2 = calls w1 ++ cs2 ->
  issued w w2 = issued w w1 ++ issued w1 w2.
Proof.
  intros H1 H2. rewrite (issued_app _ _ _ H1), (issued_app _ _ _ H2).
  apply issued_app. by rewrite H2, H1, <- app_assoc.
Qed.

Lemma forallb_or (f g : Call -> bool) cs :
  forallb f cs = true -> forallb (fun c => f c || g c)%bool cs = true.
Proof.
  induction cs as [|c cs IH]; cbn; [done |].
  intros [-> Hcs]%andb_true_iff. cbn. by apply IH.
Qed.

(** X1.  Between kinds the handler has branches for, a transfer none of
    whose calls failed is answered with success.  A transfer that is
    answered with success made no call that failed, except possibly the
    delete of an object of a bucket: the handler does not read what
    [DeleteObjectsCommand] answers. *)
Theorem transfer_success_and_calls d n u req w :
  isDir req = false ->
  let out := transfer d n u req w in
  let cs := issued w (snd out) in
  ((exists m, fst out = Val (Success m)) ->
   forallb (fun c => call_ok c || bucket_delete c)%bool cs = true) /\
  (supported (srcConnection req) = true ->
   supported (dstConnection req) = true ->
   forallb call_ok cs = true -> exists m, fst out = Val (Success m)).
Proof.
  intros Hd. cbv zeta. run_transfer_calls Hd; rewrite issued_cleaned.
  - rewrite (issued_trans w w2 w3 (cs1 ++ cs2) cs3), (issued_trans w w1 w2 cs1 cs2);
      [| done | done | by rewrite Hcs2, Hcs1, <- app_assoc | done].
    destruct Hk3 as [Hk3 _]. rewrite !forallb_app, Hk3.
    rewrite (forallb_or _ _ _ Hk1), (forallb_or _ _ _ Hk2).
    split; [done | by eexists].
  - rewrite (issued_trans w w2 w3 (cs1 ++ cs2) cs3), (issued_trans w w1 w2 cs1 cs2);
      [| done | done | by rewrite Hcs2, Hcs1, <- app_assoc | done].
    rewrite !forallb_app, Hk1, Hk2, Hk3. split; [by intros [m [=]] | done].
  - rewrite (issued_trans w w1 w2 cs1 cs2) by done.
    rewrite !forallb_app, Hk1, Hk2. split; [by intros [m [=]] |].
    intros _ ->. done.
  - rewrite Hk1. split; [by intros [m [=]] |]. intros ->. done.
Qed.

(** The move of Scenario A, with credentials stored for both servers and
    no fault planned. *)
Lemma transfer_success_witness :
  exists m,
    fst (transfer "/srv/app" 1700000000000 "u1" Scenarios.moveReport
           Scenarios.world1) = Val (Success m).
Proof.
  refine (proj2 (transfer_success_and_calls "/srv/app" 1700000000000 "u1"
                   Scenarios.moveReport Scenarios.world1 _) _ _ _).
  - reflexivity.
  - reflexivity.
  - reflexivity.
  - vm_compute; reflexivity.
Defined.



(** X3.  A copy between two different remote files, handled with no other
    request at work on its staging path, its source or its destination (two
    transfers that share a staging path are the subject of C8), never
    deletes and never changes its source; it is answered with success
    exactly when the upload reported success, and the destination then holds
    the content of the source. *)
Theorem copy_keeps_source d n u req w sl dl :
  isDir req = false ->
  isMove req = false ->
  source u req w = Some sl ->
  destination u req w = Some dl ->
  sl <> dl ->
  let out := transfer d n u req w in
  let cs := issued w (snd out) in
  let after := remote (snd out) in
  existsb is_delete cs = false /\
  after !! sl = remote w !! sl /\
  ((exists m, fst out = Val (Success m)) <-> upload_ok cs = true) /\
  (upload_ok cs = true ->
   exists data, remote w !! sl = Some data /\ after !! dl = Some data).
Proof.
  intros Hd Hm Hsl Hdl Hne. cbv zeta. unfold source, destination in *.
  run_transfer_calls Hd; rewrite issued_cleaned; cbn [remote cleaned set_localfs].
  2: { (* step 3 of a copy makes no call and cannot throw *)
       destruct (Hcp3 Hm) as [-> _]. rewrite app_nil_r in Hcs3.
       unfold issued in Hk3. by rewrite Hcs3, drop_all in Hk3. }
  1: destruct (Hcp3 Hm) as [-> Hrem3]; rewrite app_nil_r in Hcs3.
  1: assert (Hcs : issued w w3 = cs1 ++ cs2)
       by (apply issued_app; rewrite Hcs3, Hcs2, Hcs1, <- !app_assoc; done).
  2: assert (Hcs : issued w w2 = cs1 ++ cs2)
       by (apply issued_app; rewrite Hcs2, Hcs1, <- !app_assoc; done).
  3: assert (Hcs : issued w w1 = cs1) by (by apply issued_app).
  all: rewrite Hcs; clear Hcs.
  all: destruct (fetch_calls _ Hf1) as (Hu1 & _ & Hdel1 & _).
  1,2: destruct (place_calls _ Hf2) as (Hdel2 & _).
  1,2: destruct Ho1 as (sl' & data & Hsl' & Hdata & Htmp);
       rewrite Hsl in Hsl'; injection Hsl' as <-.
  1: destruct Ho2 as (dl' & data' & Hdl' & Htmp' & Hrem2);
     rewrite Hc1, Hdl in Hdl'; injection Hdl' as <-;
     rewrite Htmp in Htmp'; injection Htmp' as <-.
  all: unfold upload_ok in *; rewrite ?existsb_app, ?Hdel1, ?Hdel2, ?Hu1, ?Hu2.
  - rewrite Hrem3, Hrem2, Hr1. split_and!; try done.
    + by rewrite lookup_insert_ne.
    + split; [done | intros _; by eexists].
    + intros _. exists data. split; [done | apply lookup_insert_eq].
  - destruct Ho2 as [Hrem2 _]. split_and!; try done.
    + rewrite Hrem2, Hr1; [done |]. rewrite Hc1, Hdl. congruence.
    + split; [by intros [m [=]] | done].
  - split_and!; try done.
    + by rewrite Hr1.
    + split; [by intros [m [=]] | done].
Qed.

(** The copy of the minutes from the FTP server to the bucket, with
    credentials stored for both. *)
Lemma copy_keeps_source_witness :
  exists data,
    remote Scenarios.world1 !! Scenarios.pubReport = Some data /\
    remote (snd (transfer "/srv/app" 1700000000000 "u1" Scenarios.copyMinutes
                   Scenarios.world1)) !! Scenarios.incomingReport = Some data.
Proof.
  refine (proj2 (proj2 (proj2
    (copy_keeps_source "/srv/app" 1700000000000 "u1" Scenarios.copyMinutes
       Scenarios.world1 Scenarios.pubReport Scenarios.incomingReport
       _ _ _ _ _))) _).
  - reflexivity.
  - reflexivity.
  - vm_compute; reflexivity.
  - vm_compute; reflexivity.
  - discriminate.
  - vm_compute; reflexivity.
Defined.

(** X4.  For plain file names, two staging paths of one directory are the
    same only for the same clock value and the same file name. *)
Theorem staging_paths_differ d n1 f1 n2 f2 :
  plain f1 -> plain f2 ->
  tempFile d n1 f1 = tempFile d n2 f2 <-> n1 = n2 /\ f1 = f2.
Proof.
  intros _ _. split; [| by intros [-> ->]].
  unfold tempFile, JS.path_join. intros H.
  apply append_inv_head, append_inv_head in H.
  apply (append_inv_head "temp_") in H.
  apply split_at_first in H as [Hn ->];
    [| apply pretty_Z_occurs; [apply no_digit_underscore | done] ..].
  split; [| done]. by apply (inj pretty).
Qed.

(** The same file name one millisecond later. *)
Lemma staging_paths_differ_witness :
  plain "report.pdf" /\
  tempFile "/srv/app" 1700000000000 "report.pdf"
    <> tempFile "/srv/app" 1700000000001 "report.pdf".
Proof.
  split; [reflexivity |]. intros H.
  apply (proj1 (staging_paths_differ "/srv/app" 1700000000000 "report.pdf"
                  1700000000001 "report.pdf" eq_refl eq_refl)) in H.
  destruct H as [H _]. discriminate H.
Defined.

(** X29.  What holds of a move between two different remote files, handled
    with no other request at work on its staging path, its source or its
    destination.  Everything the handler issues after the upload goes to the
    source file, and a delete is issued only after the upload reported
    success.  A move whose upload reported no success is answered with an
    error and leaves the source as it was; once the upload reported success
    the destination holds the content of the source.  The source is absent
    afterwards exactly when a delete reported success, and the move is then
    answered with success; a move answered with success without such a
    delete is one out of a bucket. *)
Theorem move_deletes_only_after_upload d n u req w sl dl :
  isDir req = false ->
  isMove req = true ->
  source u req w = Some sl ->
  destination u req w = Some dl ->
  sl <> dl ->
  let out := transfer d n u req w in
  let cs := issued w (snd out) in
  let after := remote (snd out) in
  forallb (retires sl) (after_upload cs) = true /\
  (existsb is_delete cs = true -> upload_ok cs = true) /\
  (upload_ok cs = false ->
   after !! sl = remote w !! sl /\ exists msg, fst out = Val (Error 500 msg)) /\
  (upload_ok cs = true ->
   after !! dl = remote w !! sl /\ is_Some (remote w !! sl)) /\
  after !! sl = (if existsb is_delete_ok cs then None else remote w !! sl) /\
  (existsb is_delete_ok cs = true ->
   fst out = Val (Success "Arquivo movido com sucesso")) /\
  ((exists m, fst out = Val (Success m)) ->
   existsb is_delete_ok cs = false -> kind (srcConnection req) = "s3").
Proof.
  intros Hd Hm Hsl Hdl Hne. cbv zeta. unfold source, destination in *.
  run_transfer Hd; rewrite issued_cleaned; cbn [remote cleaned set_localfs].
  1,2: assert (Hcs : issued w w3 = cs1 ++ cs2 ++ cs3)
         by (apply issued_app; rewrite Hcs3, Hcs2, Hcs1, <- !app_assoc; done).
  3: assert (Hcs : issued w w2 = cs1 ++ cs2)
       by (apply issued_app; rewrite Hcs2, Hcs1, <- !app_assoc; done).
  4: assert (Hcs : issued w w1 = cs1) by (by apply issued_app).
  all: rewrite Hcs; clear Hcs.
  all: destruct (fetch_calls _ Hf1) as (Hu1 & _ & Hdel1 & Hdok1).
  1,2,3: destruct (place_calls _ Hf2) as (Hdel2 & Hdok2).
  1,2,3: destruct Ho1 as (sl' & data & Hsl' & Hdata & Htmp);
         rewrite Hsl in Hsl'; injection Hsl' as <-.
  1,2: destruct Ho2 as (dl' & data' & Hdl' & Htmp' & Hrem2);
       rewrite Hc1, Hdl in Hdl'; injection Hdl' as <-;
       rewrite Htmp in Htmp'; injection Htmp' as <-.
  1,2: specialize (Hre3 _ Hsl); rewrite Hsl in Ho3.
  1,2: assert (Hup : upload_ok (cs1 ++ cs2 ++ cs3) = true)
         by (unfold upload_ok in *; rewrite !existsb_app, Hu2; apply orb_true_r).
  1,2: assert (Haft : after_upload (cs1 ++ cs2 ++ cs3) = cs3)
         by (rewrite after_upload_app, Hu1, after_upload_app, Hu2, Ha2; done).
  1,2: assert (Hdok : existsb is_delete_ok (cs1 ++ cs2 ++ cs3)
                      = existsb is_delete_ok cs3)
         by (by rewrite !existsb_app, Hdok1, Hdok2).
  1,2: rewrite Haft, Hup, Hdok.
  - (* step 3 returned *)
    specialize (Hd3 Hm (location_supported _ _ _ _ Hsl)). rewrite Hm.
    destruct (existsb is_delete_ok cs3) eqn:Hok.
    + assert (remote w3 !! dl = Some data) as Hthere.
      { rewrite Ho3, lookup_delete_ne, Hrem2 by done. apply lookup_insert_eq. }
      split_and!; try done.
      all: try (intros _; split; [congruence | by eexists]).
      all: try (rewrite Ho3; apply lookup_delete_eq).
    + assert (remote w3 !! dl = Some data) as Hthere.
      { rewrite Ho3, Hrem2. apply lookup_insert_eq. }
      split_and!; try done.
      all: try (intros _; split; [congruence | by eexists]).
      all: try (rewrite Ho3, Hrem2, lookup_insert_ne, Hr1 by done; done).
      all: try (intros _ _; by apply Hd3).
  - (* step 3 threw *)
    rewrite Hd3 in Ho3 |- *.
    assert (remote w3 !! dl = Some data) as Hthere.
    { rewrite Ho3, Hrem2. apply lookup_insert_eq. }
    split_and!; try done.
    all: try (intros _; split; [congruence | by eexists]).
    all: try (rewrite Ho3, Hrem2, lookup_insert_ne, Hr1 by done; done).
    all: try (by intros [m [=]]).
  - (* the upload failed *)
    assert (Hup : upload_ok (cs1 ++ cs2) = false)
      by (unfold upload_ok in *; rewrite existsb_app, Hu1, Hu2; done).
    assert (existsb is_delete_ok (cs1 ++ cs2) = false) as Hdok
      by (by rewrite !existsb_app, Hdok1, Hdok2).
    rewrite Hup, Hdok, (after_upload_none _ Hup).
    destruct Ho2 as [Hrem2 _].
    assert (remote w2 !! sl = remote w !! sl) as Hsame.
    { rewrite Hrem2, Hr1; [done |]. rewrite Hc1, Hdl. congruence. }
    split_and!; try done.
    + by rewrite existsb_app, Hdel1, Hdel2.
    + intros _. split; [done | by eexists].
    + by intros [m [=]].
  - (* the download failed *)
    rewrite Hu1, Hdok1, (after_upload_none _ Hu1).
    split_and!; try done.
    + by rewrite Hdel1.
    + intros _. split; [by rewrite Hr1 | by eexists].
    + by rewrite Hr1.
    + by intros [m [=]].
Qed.

(** The move of Scenario A with credentials stored for both servers: with
    no fault planned the report ends up in the bucket alone, and when the
    connection for the delete is refused after the upload it is in both
    places. *)
Lemma move_deletes_only_after_upload_witness :
  (remote (snd (transfer "/srv/app" 1700000000000 "u1" Scenarios.moveReport
                  Scenarios.world1)) !! Scenarios.docsReport = None /\
   remote (snd (transfer "/srv/app" 1700000000000 "u1" Scenarios.moveReport
                  Scenarios.world1)) !! Scenarios.archiveReport
     = Some Scenarios.report) /\
  (remote (snd (transfer "/srv/app" 1700000000000 "u1" Scenarios.moveReport
                  (set_plan [NoFault; NoFault; NoFault; Fail "ECONNRESET" None]
                     Scenarios.world1))) !! Scenarios.docsReport
     = Some Scenarios.report /\
   remote (snd (transfer "/srv/app" 1700000000000 "u1" Scenarios.moveReport
                  (set_plan [NoFault; NoFault; NoFault; Fail "ECONNRESET" None]
                     Scenarios.world1))) !! Scenarios.archiveReport
     = Some Scenarios.report).
Proof.
  split.
  - destruct (move_deletes_only_after_upload "/srv/app" 1700000000000 "u1"
                Scenarios.moveReport Scenarios.world1
                Scenarios.docsReport Scenarios.archiveReport)
      as (_ & _ & _ & Hup & Hsrc & _);
      [reflexivity | reflexivity | vm_compute; reflexivity
      | vm_compute; reflexivity | discriminate |].
    split.
    + rewrite Hsrc. vm_compute; reflexivity.
    + rewrite (proj1 (Hup ltac:(vm_compute; reflexivity))). vm_compute; reflexivity.
  - destruct (move_deletes_only_after_upload "/srv/app" 1700000000000 "u1"
                Scenarios.moveReport
                (set_plan [NoFault; NoFault; NoFault; Fail "ECONNRESET" None]
                   Scenarios.world1)
                Scenarios.docsReport Scenarios.archiveReport)
      as (_ & _ & _ & Hup & Hsrc & _);
      [reflexivity | reflexivity | vm_compute; reflexivity
      | vm_compute; reflexivity | discriminate |].
    split.
    + rewrite Hsrc. vm_compute; reflexivity.
    + rewrite (proj1 (Hup ltac:(vm_compute; reflexivity))). vm_compute; reflexivity.
Defined.

(** X28.  A move whose destination is its source file loses the file: when
    none of its calls fails it is answered with success, and the file is
    absent afterwards. *)
Theorem move_onto_itself_loses_file d n u req w l :
  isDir req = false ->
  isMove req = true ->
  source u req w = Some l ->
  destination u req w = Some l ->
  let out := transfer d n u req w in
  forallb call_ok (issued w (snd out)) = true ->
  fst out = Val (Success "Arquivo movido com sucesso") /\
  remote (snd out) !! l = None.
Proof.
  intros Hd Hm Hsl Hdl. cbv zeta. unfold source, destination in *.
  pose proof (location_supported _ _ _ _ Hsl) as Hs.
  pose proof (location_supported _ _ _ _ Hdl) as Ht.
  run_transfer_calls Hd; rewrite issued_cleaned; cbn [remote cleaned set_localfs].
  - rewrite (issued_trans w w2 w3 (cs1 ++ cs2) cs3);
      [| by rewrite Hcs2, Hcs1, <- app_assoc | done].
    rewrite forallb_app. intros [_ Hall]%andb_true_iff.
    rewrite Hm. split; [done |].
    destruct Hk3 as [_ Hk3]. specialize (Hk3 Hm Hs Hall).
    rewrite (issued_app _ _ _ Hcs3) in Hk3.
    rewrite Ho3, Hk3, Hsl. apply lookup_delete_eq.
  - rewrite (issued_trans w w2 w3 (cs1 ++ cs2) cs3);
      [| by rewrite Hcs2, Hcs1, <- app_assoc | done].
    rewrite forallb_app, Hk3, andb_false_r. done.
  - rewrite (issued_trans w w1 w2 cs1 cs2) by done.
    rewrite forallb_app, Hk2, Ht, andb_false_r. done.
  - rewrite Hk1, Hs. done.
Qed.

(** The move of [/docs/report.pdf] of ServerA onto itself, with no fault
    planned. *)
Lemma move_onto_itself_witness :
  fst (transfer "/srv/app" 1700000000000 "u1" Examples.moveOntoItself
         Scenarios.world0) = Val (Success "Arquivo movido com sucesso") /\
  remote (snd (transfer "/srv/app" 1700000000000 "u1" Examples.moveOntoItself
                 Scenarios.world0)) !! Scenarios.docsReport = None.
Proof.
  apply (move_onto_itself_loses_file "/srv/app" 1700000000000 "u1"
           Examples.moveOntoItself Scenarios.world0 Scenarios.docsReport).
  - reflexivity.
  - reflexivity.
  - vm_compute; reflexivity.
  - vm_compute; reflexivity.
  - vm_compute; reflexivity.
Defined.

End TransferFrameProofs.

(** ** Copy inside an S3 bucket *)

Module S3CopyProofs.
Import Env S3Copy.
Open Scope list_scope.

(** X5.  The copy handler makes at most one call and changes no object but
    the destination; when it answers with success the source existed and the
    destination holds its content, and otherwise no object has changed. *)
Theorem s3_copy_writes_destination_only u req w :
  let out := copy u req w in
  let after := remote (snd out) in
  let src := (S3Bucket (host req) (bucket req), JS.or_empty (srcKey req)) in
  let dst := (S3Bucket (host req) (bucket req), JS.or_empty (dstKey req)) in
  (forall l, l <> dst -> after !! l = remote w !! l) /\
  ((exists m, fst out = Val (Success m)) ->
   is_Some (remote w !! src) /\ after !! dst = remote w !! src) /\
  ((forall m, fst out <> Val (Success m)) -> after = remote w) /\
  (List.length (issued w (snd out)) <= 1)%nat.
Proof.
  cbv zeta. unfold copy.
  destruct (resolve u req (credentials w)) as [accessKeyId secretAccessKey].
  match goal with |- context [if ?c then _ else _] => destruct c end.
  - cbn [fst snd]. unfold issued. rewrite drop_all.
    split_and!; [done | by intros [m [=]] | done | cbn [List.length]; lia].
  - unfold try_catch. unfold_prims. world_simpl. unfold createS3Client. world_simpl.
    repeat match goal with
    | |- context [match hd NoFault ?p with _ => _ end] =>
        destruct (hd NoFault p) as [|? ?|?]; world_simpl
    | |- context [match ?m !! ?k with _ => _ end] =>
        let E := fresh "E" in destruct (m !! k) eqn:E; world_simpl
    end.
    all: unfold issued; world_simpl; rewrite <- ?app_assoc, ?drop_app_length;
         cbn [app List.length].
    + split_and!; [| | | lia].
      * intros l' Hl. by rewrite lookup_insert_ne.
      * intros _. split; [by eexists | apply lookup_insert_eq].
      * intros H. by destruct (H "Arquivo copiado com sucesso").
    + split_and!; [done | by intros [m [=]] | done | lia].
    + split_and!; [done | by intros [m [=]] | done | lia].
    + split_and!; [done | by intros [m [=]] | done | lia].
Qed.

(** X6.  A rename begins as the copy with the same fields does: where the
    copy is answered with an error, the rename is answered with the same
    error and leaves the same world, without a delete. *)
Theorem s3_rename_fails_as_copy u req w status message :
  fst (copy u (of_rename req) w) = Val (Error status message) ->
  S3Rename.rename u req w = copy u (of_rename req) w.
Proof.
  unfold copy, S3Rename.rename, resolve, S3Rename.resolve, of_rename.
  cbn [host username password bucket srcKey dstKey region connectionId].
  match goal with
  | |- context [let '(a, b) := ?r in _] => destruct r as [accessKeyId secretAccessKey]
  end.
  match goal with |- context [if ?c then _ else _] => destruct c end; [done |].
  unfold try_catch. unfold_prims. world_simpl. unfold createS3Client. world_simpl.
  repeat match goal with
  | |- context [match hd NoFault ?p with _ => _ end] =>
      destruct (hd NoFault p) as [|? ?|?]; world_simpl
  | |- context [match ?m !! ?k with _ => _ end] =>
      let E := fresh "E" in destruct (m !! k) eqn:E; world_simpl
  end; try done.
Qed.

(** A rename of [old.txt], which the bucket does not hold. *)
Lemma s3_rename_fails_as_copy_witness :
  S3Rename.rename "u1" Examples.renameMissing Scenarios.world0 =
  copy "u1" (of_rename Examples.renameMissing) Scenarios.world0.
Proof.
  apply (s3_rename_fails_as_copy "u1" Examples.renameMissing Scenarios.world0
           500 "The specified key does not exist.").
  vm_compute; reflexivity.
Defined.

End S3CopyProofs.

(** ** The credential file *)

Module CredentialFileProofs.
Import Env CredentialFile Text TextProofs.

Section Cipher.
Variable encrypt : string -> string -> EncryptedObj.
Variable decrypt : EncryptedObj -> option string.

Lemma key_inj connectionId userId connectionId' userId' :
  occurs ":" userId = false -> occurs ":" userId' = false ->
  key connectionId userId = key connectionId' userId' ->
  userId = userId' /\ connectionId = connectionId'.
Proof.
  unfold key. intros Hu Hu' H.
  change (":" +:+ connectionId) with (String ":" connectionId) in H.
  change (":" +:+ connectionId') with (String ":" connectionId') in H.
  by apply split_at_first in H.
Qed.

(** X8.  The ids the server gives to users are printed clock values, and
    two keys of the credential file built from such ids are the same only
    for the same clock value and the same connection: a colon inside a
    connection id never makes the key of one id the key of another.  (Two
    users may still have the same id: X30.) *)
Theorem credential_keys_of_server_ids (now now' : Z) connectionId connectionId' :
  key connectionId (pretty now) = key connectionId' (pretty now') <->
  now = now' /\ connectionId = connectionId'.
Proof.
  split; [| by intros [-> ->]].
  intros H. apply key_inj in H as [H ->].
  - split; [| done]. by apply (inj pretty).
  - apply pretty_Z_occurs; [apply no_digit_colon | done].
  - apply pretty_Z_occurs; [apply no_digit_colon | done].
Qed.

(** X9.  Saving credentials and deleting them changes what is stored for
    no other user and no other connection, as long as user ids hold no
    colon. *)
Theorem credentials_are_per_key connectionId userId connectionId' userId'
    username password port secure iv1 iv2 now d :
  occurs ":" userId = false ->
  occurs ":" userId' = false ->
  (userId', connectionId') <> (userId, connectionId) ->
  CredentialFile.getConnectionCredentials decrypt connectionId' userId'
    (snd (saveConnectionCredentials encrypt connectionId userId username password
            port secure iv1 iv2 now d))
  = CredentialFile.getConnectionCredentials decrypt connectionId' userId' d /\
  CredentialFile.getConnectionCredentials decrypt connectionId' userId'
    (snd (deleteConnectionCredentials connectionId userId d))
  = CredentialFile.getConnectionCredentials decrypt connectionId' userId' d.
Proof.
  intros Hu Hu' Hne.
  assert (key connectionId userId <> key connectionId' userId') as Hk.
  { intros H. apply key_inj in H as [-> ->]; done. }
  unfold saveConnectionCredentials, deleteConnectionCredentials, saveCredentials,
    CredentialFile.getConnectionCredentials.
  split.
  - destruct (writable d); cbn [snd file]; [| done]. by rewrite lookup_insert_ne.
  - destruct (file d !! key connectionId userId); [| done].
    destruct (writable d); cbn [snd file]; [| done]. by rewrite lookup_delete_ne.
Qed.

(** X10.  On a writable disk the delete route answers 404 exactly when
    nothing is stored under the key; afterwards nothing is found there, and
    a second delete answers 404. *)
Theorem deleted_credentials_are_gone connectionId userId d :
  writable d = true ->
  let out := delete_credentials connectionId userId d in
  fst out =
    Val (if bool_decide (is_Some (file d !! key connectionId userId))
         then Saved "Credenciais removidas"
         else Refused 404 "Credenciais não encontradas") /\
  get_credentials decrypt connectionId userId (snd out)
    = Refused 404 "Credenciais não encontradas" /\
  credentials_exist decrypt connectionId userId (snd out) = Known false false false /\
  fst (delete_credentials connectionId userId (snd out)) =
    Val (Refused 404 "Credenciais não encontradas").
Proof.
  intros Hw. cbv zeta.
  unfold delete_credentials, deleteConnectionCredentials, saveCredentials,
    get_credentials, credentials_exist, CredentialFile.getConnectionCredentials.
  rewrite Hw. destruct (file d !! key connectionId userId) as [stored|] eqn:E.
  - cbn [fst snd file]. rewrite lookup_delete_eq. by rewrite bool_decide_eq_true_2.
  - cbn [fst snd]. rewrite E. by rewrite bool_decide_eq_false_2 by (by intros [? [=]]).
Qed.

(** X11.  The save route answers with success exactly when the request
    carries a user name and a password and the file can be written; in every
    other case the file is as before. *)
Theorem refused_save_changes_nothing connectionId userId body iv1 iv2 now d :
  let out := post_credentials encrypt connectionId userId body iv1 iv2 now d in
  (fst out = Saved "Credenciais salvas com segurança" <->
   JS.truthy_str (username body) = true /\ JS.truthy_str (password body) = true /\
   writable d = true) /\
  (fst out <> Saved "Credenciais salvas com segurança" -> snd out = d).
Proof.
  cbv zeta. unfold post_credentials, saveConnectionCredentials, saveCredentials.
  destruct (JS.truthy_str (username body)), (JS.truthy_str (password body)),
    (writable d); cbn; split; try done; try (split; [done | by intros (? & ? & ?)]).
Qed.

(** X12.  Credentials read from the file never have an empty user name or
    an empty password. *)
Theorem found_credentials_are_not_empty connectionId userId d credentials :
  CredentialFile.getConnectionCredentials decrypt connectionId userId d
    = Some credentials ->
  Env.username credentials <> "" /\ Env.password credentials <> "".
Proof.
  unfold CredentialFile.getConnectionCredentials.
  destruct (file d !! _) as [stored|]; [| done].
  destruct (decrypt (storedUsername stored)) as [u|]; [| done].
  destruct (decrypt (storedPassword stored)) as [p|]; [| done].
  destruct (String.eqb u "") eqn:Eu; [done |].
  destruct (String.eqb p "") eqn:Ep; [done |].
  intros [= <-]. cbn. split; by apply String.eqb_neq.
Qed.

Hypothesis decrypt_encrypt : forall iv text, decrypt (encrypt iv text) = Some text.

(** X13.  With a cipher that decrypts what it encrypted, credentials saved
    on a writable disk are the ones the read route answers with, port and
    TLS flag included. *)
Theorem saved_credentials_are_found connectionId userId body iv1 iv2 now d :
  JS.truthy_str (username body) = true ->
  JS.truthy_str (password body) = true ->
  writable d = true ->
  let out := post_credentials encrypt connectionId userId body iv1 iv2 now d in
  fst out = Saved "Credenciais salvas com segurança" /\
  get_credentials decrypt connectionId userId (snd out) =
    Found (JS.or_empty (username body)) (JS.or_empty (password body))
      (port body) (secure body) /\
  credentials_exist decrypt connectionId userId (snd out) =
    Known true (bool_decide (is_Some (port body)))
      (bool_decide (is_Some (secure body))).
Proof.
  intros Hu Hp Hw. cbv zeta. unfold post_credentials.
  rewrite Hu, Hp. cbn [negb orb].
  unfold saveConnectionCredentials, saveCredentials. rewrite Hw. cbn [fst snd].
  split; [done |].
  unfold get_credentials, credentials_exist,
    CredentialFile.getConnectionCredentials. cbn [file].
  rewrite lookup_insert_eq. cbn [storedUsername storedPassword storedPort storedSecure].
  rewrite !decrypt_encrypt.
  destruct (username body) as [u|]; [| done]. destruct (password body) as [p|]; [| done].
  cbn in Hu, Hp. apply negb_true_iff in Hu, Hp. cbn [JS.or_empty].
  rewrite Hu, Hp. cbn [orb]. split; [done |].
  rewrite bool_decide_eq_true_2 by done. done.
Qed.

End Cipher.

(** Bob saves his credentials for [conn-a]; carol's key is another one. *)
Lemma saved_credentials_are_found_witness :
  get_credentials Examples.readText "conn-a" "1700000000001" Examples.bobDisk
    = Found "bob" "hunter2" (Some 2222) None.
Proof.
  refine (proj1 (proj2 (saved_credentials_are_found Examples.keepText Examples.readText
            _ "conn-a" "1700000000001" Examples.bobBody "00" "01"
            "2024-01-01T00:00:00.000Z" Examples.emptyDisk _ _ _))).
  - reflexivity.
  - reflexivity.
  - reflexivity.
  - reflexivity.
Defined.

(** Dave saves credentials for [conn-a] next to bob's, and deletes them
    again: bob's entry is read as before each time, while dave's entry
    appears and disappears. *)
Lemma credentials_are_per_key_witness :
  (CredentialFile.getConnectionCredentials Examples.readText "conn-a" "1700000000001"
     Examples.twoDisk
   = CredentialFile.getConnectionCredentials Examples.readText "conn-a" "1700000000001"
       Examples.bobDisk /\
   CredentialFile.getConnectionCredentials Examples.readText "conn-a" "1700000000001"
     (snd (deleteConnectionCredentials "conn-a" "1700000000002" Examples.twoDisk))
   = CredentialFile.getConnectionCredentials Examples.readText "conn-a" "1700000000001"
       Examples.twoDisk) /\
  CredentialFile.getConnectionCredentials Examples.readText "conn-a" "1700000000001"
    Examples.bobDisk = Some Scenarios.bob /\
  file Examples.bobDisk !! key "conn-a" "1700000000002" = None /\
  is_Some (file Examples.twoDisk !! key "conn-a" "1700000000002") /\
  file (snd (deleteConnectionCredentials "conn-a" "1700000000002" Examples.twoDisk))
    !! key "conn-a" "1700000000002" = None.
Proof.
  split; [split |].
  - refine (proj1 (credentials_are_per_key Examples.keepText Examples.readText
              "conn-a" "1700000000002" "conn-a" "1700000000001"
              "dave" "letmein" (Some 22) None "02" "03" "2024-01-02T00:00:00.000Z"
              Examples.bobDisk _ _ _)).
    + reflexivity.
    + reflexivity.
    + discriminate.
  - refine (proj2 (credentials_are_per_key Examples.keepText Examples.readText
              "conn-a" "1700000000002" "conn-a" "1700000000001"
              "" "" None None "" "" "" Examples.twoDisk _ _ _)).
    + reflexivity.
    + reflexivity.
    + discriminate.
  - split_and!; [vm_compute; reflexivity | vm_compute; reflexivity
                 | vm_compute; by eexists | vm_compute; reflexivity].
Defined.

Lemma deleted_credentials_are_gone_witness :
  fst (delete_credentials "conn-a" "1700000000001" Examples.bobDisk)
    = Val (Saved "Credenciais removidas") /\
  get_credentials Examples.readText "conn-a" "1700000000001"
    (snd (delete_credentials "conn-a" "1700000000001" Examples.bobDisk))
    = Refused 404 "Credenciais não encontradas".
Proof.
  destruct (deleted_credentials_are_gone Examples.readText "conn-a" "1700000000001"
              Examples.bobDisk eq_refl) as (H1 & H2 & _).
  split; [| exact H2]. rewrite H1. vm_compute; reflexivity.
Defined.

Lemma found_credentials_are_not_empty_witness :
  Env.username Scenarios.bob <> "" /\ Env.password Scenarios.bob <> "".
Proof.
  apply (found_credentials_are_not_empty Examples.readText "conn-a" "1700000000001"
           Examples.bobDisk Scenarios.bob).
  vm_compute; reflexivity.
Defined.

End CredentialFileProofs.

(** ** The user file *)

Module UsersProofs.
Import Users.
Open Scope list_scope.

Section Crypto.
Variable hashSync : string -> string.
Variable compareSync : string -> string -> bool.
Variable sign : string -> string -> Z -> string.
Variable codeUnits : string -> nat.

Lemma findByEmail_None e users :
  findByEmail e users = None <-> e ∉ map email users.
Proof.
  unfold findByEmail. induction users as [|u users IH]; cbn.
  - split; [intros _ | done]. apply not_elem_of_nil.
  - rewrite not_elem_of_cons. case_bool_decide as E.
    + split; [done | intros [? _]; congruence].
    + rewrite IH. split; [intros ?; split; [congruence | done] | tauto].
Qed.

Lemma findByEmail_last e users u :
  e ∉ map email users -> email u = e -> findByEmail e (users ++ [u]) = Some u.
Proof.
  unfold findByEmail. intros Hn He. induction users as [|v users IH]; cbn.
  - by rewrite bool_decide_eq_true_2.
  - cbn in Hn. apply not_elem_of_cons in Hn as [Hv Hn].
    rewrite bool_decide_eq_false_2 by congruence. by apply IH.
Qed.

Lemma emails_added e u users :
  findByEmail e users = None -> email u = e ->
  NoDup (map email users) -> NoDup (map email (users ++ [u])).
Proof.
  intros E He Hnd. apply findByEmail_None in E.
  rewrite map_app. cbn [map]. apply NoDup_app. split_and!; [done | | ].
  - intros e' He' ->%list_elem_of_singleton. congruence.
  - apply NoDup_singleton.
Qed.

Lemma emails_perform op users :
  NoDup (map email users) ->
  NoDup (map email (perform hashSync sign codeUnits op users)).
Proof.
  intros Hnd. destruct op as [clock body|clock body|paramId]; cbn [perform].
  - unfold register. destruct (_ || _)%bool; [done |].
    destruct (Nat.ltb _ _); [done |].
    destruct (findByEmail _ _) eqn:E; [done |]. cbn [snd].
    by apply (emails_added (bodyEmail body)).
  - unfold createUser. destruct (findByEmail _ _) eqn:E; [done |].
    destruct (bodyPassword body); [| done]. cbn [snd].
    by apply (emails_added (bodyEmail body)).
  - unfold deleteUser. destruct (Nat.eqb _ _); [done |]. cbn [snd].
    clear -Hnd. induction users as [|u users IH]; [done |].
    cbn in Hnd. apply NoDup_cons in Hnd as [Hu Hnd].
    rewrite filter_cons. destruct (decide _); [| by apply IH].
    cbn [map]. apply NoDup_cons. split; [| by apply IH].
    intros Hin. apply Hu. apply list_elem_of_fmap in Hin as (v & -> & Hv).
    apply list_elem_of_filter in Hv as [_ Hv]. apply list_elem_of_fmap. by exists v.
Qed.

(** X14.  For requests whose fields are strings or absent: no sequence of
    registrations, creations and deletions gives two users of the file the
    same email. *)
Theorem emails_stay_distinct ops users :
  NoDup (map email users) ->
  NoDup (map email (serve hashSync sign codeUnits ops users)).
Proof.
  unfold serve. revert users. induction ops as [|op ops IH]; intros users Hnd; [done |].
  cbn [foldl]. by apply IH, emails_perform.
Qed.

Hypothesis compare_hash : forall password,
  compareSync password (hashSync password) = true.

(** X15.  With a hash that verifies the password it was made from, a
    registration that is answered with a session added one user, whose
    password has at least six code units, and a login with the same email
    and password is then answered with a session of that user, in the role
    [user]. *)
Theorem registered_user_can_log_in clock clock' body users token i n e r c :
  fst (register hashSync sign codeUnits clock body users) = Session token i n e r c ->
  let users' := snd (register hashSync sign codeUnits clock body users) in
  login compareSync sign clock' body users' =
    Session (sign (pretty (dateNow clock)) "user" (issuedAt clock'))
      (pretty (dateNow clock)) (bodyName body) (bodyEmail body) "user"
      (isoNow clock) /\
  users' = users ++ [ {| id := i; name := n; email := e;
                         passwordHash := hashSync (JS.or_empty (bodyPassword body));
                         role := r; createdAt := c |} ] /\
  6 <= Z.of_nat (codeUnits (JS.or_empty (bodyPassword body))).
Proof.
  cbv zeta. unfold register.
  destruct (negb (JS.truthy_str (bodyName body)) || _ || _)%bool eqn:Ef; [done |].
  destruct (Nat.ltb _ _) eqn:El; [done |].
  destruct (findByEmail _ _) eqn:E; [done |]. cbn [fst snd].
  intros [= <- <- <- <- <- <-]. apply findByEmail_None in E.
  split; [| split; [done | apply Nat.ltb_ge in El; lia]].
  unfold login. rewrite (findByEmail_last _ _ _ E) by done. cbn.
  apply orb_false_iff in Ef as [_ Hp]. apply negb_false_iff in Hp.
  destruct (bodyPassword body) as [p|]; [| done]. cbn.
  by rewrite compare_hash.
Qed.

Lemma register_session clock body users t i n e r c :
  fst (register hashSync sign codeUnits clock body users) = Session t i n e r c ->
  findByEmail (bodyEmail body) users = None /\
  i = pretty (dateNow clock) /\ e = bodyEmail body /\
  exists u, id u = i /\ email u = e /\
    snd (register hashSync sign codeUnits clock body users) = users ++ [u].
Proof.
  unfold register.
  destruct (negb (JS.truthy_str (bodyName body)) || _ || _)%bool; [done |].
  destruct (Nat.ltb _ _); [done |].
  destruct (findByEmail (bodyEmail body) users) eqn:E; [done |]. cbn [fst snd].
  intros [= <- <- <- <- <- <-]. split_and!; try done.
  eexists. split_and!; [| | reflexivity]; reflexivity.
Qed.

(** X30.  Ids are clock values and nothing keeps two of them apart: two
    registrations with different emails that read the same clock value are
    both answered with a session, and the two users they add have the same
    id, so that both name the same entries of the credential file. *)
Theorem same_clock_same_id clock clock' body body' users
    t1 i1 n1 e1 r1 c1 t2 i2 n2 e2 r2 c2 :
  dateNow clock' = dateNow clock ->
  fst (register hashSync sign codeUnits clock body users)
    = Session t1 i1 n1 e1 r1 c1 ->
  fst (register hashSync sign codeUnits clock' body'
         (snd (register hashSync sign codeUnits clock body users)))
    = Session t2 i2 n2 e2 r2 c2 ->
  i2 = i1 /\
  (forall connectionId,
     CredentialFile.key connectionId i2 = CredentialFile.key connectionId i1) /\
  exists u1 u2,
    snd (register hashSync sign codeUnits clock' body'
           (snd (register hashSync sign codeUnits clock body users)))
      = users ++ [u1; u2] /\
    id u1 = i1 /\ id u2 = i1 /\ email u1 = e1 /\ email u2 = e2 /\ e2 <> e1.
Proof.
  intros Hclock (E1 & -> & -> & u1 & Hi1 & He1 & Hs1)%register_session
    (E2 & -> & -> & u2 & Hi2 & He2 & Hs2)%register_session.
  rewrite Hclock. split; [done |]. split; [done |].
  exists u1, u2. rewrite Hs2, Hs1, <- app_assoc. cbn [app].
  rewrite Hclock in Hi2. split_and!; try done.
  apply findByEmail_None in E2. rewrite Hs1, map_app in E2. cbn [map] in E2.
  intros Heq. apply E2. rewrite Heq, <- He1. apply elem_of_app. right.
  by apply list_elem_of_singleton.
Qed.

End Crypto.

(** Carol and Dave register in the same millisecond. *)
Lemma same_clock_same_id_witness :
  exists u1 u2,
    snd (register Examples.keepPassword Examples.signed String.length
           Examples.noon Examples.dave
           (snd (register Examples.keepPassword Examples.signed String.length
                   Examples.noon Examples.carol [Examples.admin])))
      = [Examples.admin] ++ [u1; u2] /\
    id u1 = "1700000000000" /\ id u2 = "1700000000000" /\
    email u1 = Some "carol@example.org" /\ email u2 = Some "dave@example.org" /\
    Some "dave@example.org" <> Some "carol@example.org".
Proof.
  refine (proj2 (proj2 (same_clock_same_id Examples.keepPassword Examples.signed
            String.length Examples.noon Examples.noon Examples.carol Examples.dave
            [Examples.admin]
            "1700000000000.user.1700000000" "1700000000000" (Some "Carol")
            (Some "carol@example.org") "user" "2023-11-14T22:13:20.000Z"
            "1700000000000.user.1700000000" "1700000000000" (Some "Dave")
            (Some "dave@example.org") "user" "2023-11-14T22:13:20.000Z" _ _ _))).
  - reflexivity.
  - vm_compute; reflexivity.
  - vm_compute; reflexivity.
Defined.

(** Carol registers twice and the administrator deletes a user that does
    not exist. *)
Lemma emails_stay_distinct_witness :
  NoDup (map email
           (serve Examples.keepPassword Examples.signed String.length
              [Register Examples.noon Examples.carol;
               Register Examples.later Examples.carol;
               Delete "42"] [Examples.admin])).
Proof.
  apply (emails_stay_distinct Examples.keepPassword Examples.signed String.length).
  apply NoDup_singleton.
Defined.

(** Carol registers at noon and logs in a minute later. *)
Lemma registered_user_can_log_in_witness :
  login Examples.samePassword Examples.signed Examples.later Examples.carol
    (snd (register Examples.keepPassword Examples.signed String.length
            Examples.noon Examples.carol [Examples.admin]))
  = Session "1700000000000.user.1700000060" "1700000000000" (Some "Carol")
      (Some "carol@example.org") "user" "2023-11-14T22:13:20.000Z".
Proof.
  refine (proj1 (registered_user_can_log_in Examples.keepPassword Examples.samePassword
            Examples.signed String.length _ Examples.noon Examples.later Examples.carol
            [Examples.admin] "1700000000000.user.1700000000" "1700000000000"
            (Some "Carol") (Some "carol@example.org") "user"
            "2023-11-14T22:13:20.000Z" _)).
  - intros password. unfold Examples.samePassword. apply String.eqb_refl.
  - vm_compute; reflexivity.
Defined.

End UsersProofs.

(** ** The listings of Scenario C *)

Module ListingExamples.
Import Env Listing ListingProofs.
Open Scope list_scope.

Lemma byCodeUnit_total a b :
  0 < Scenarios.byCodeUnit a b -> Scenarios.byCodeUnit b a <= 0.
Proof.
  unfold Scenarios.byCodeUnit. rewrite (String.compare_antisym b a).
  destruct (String.compare a b); cbn; lia.
Qed.

Lemma compare_lt_trans a b c :
  String.compare a b = Lt -> String.compare b c = Lt -> String.compare a c = Lt.
Proof.
  revert b c. induction a as [|x a IH]; intros [|y b] [|z c]; simpl; try done.
  destruct (Ascii.compare x y) eqn:E1, (Ascii.compare y z) eqn:E2; try done.
  - apply Ascii.compare_eq_iff in E1 as ->. rewrite E2. apply IH.
  - apply Ascii.compare_eq_iff in E1 as ->. by rewrite E2.
  - apply Ascii.compare_eq_iff in E2 as <-. by rewrite E1.
  - intros _ _. unfold Ascii.compare in *.
    rewrite N.compare_lt_iff in E1, E2.
    by rewrite (proj2 (N.compare_lt_iff _ _) (N.lt_trans _ _ _ E1 E2)).
Qed.

Lemma byCodeUnit_trans a b c :
  Scenarios.byCodeUnit a b <= 0 -> Scenarios.byCodeUnit b c <= 0 ->
  Scenarios.byCodeUnit a c <= 0.
Proof.
  unfold Scenarios.byCodeUnit.
  destruct (String.compare a b) eqn:Eab; [| | lia].
  - apply String.compare_eq_iff in Eab as ->. done.
  - destruct (String.compare b c) eqn:Ebc; [| | lia].
    + apply String.compare_eq_iff in Ebc as ->. by rewrite Eab.
    + intros _ _. rewrite (compare_lt_trans a b c Eab Ebc). lia.
Qed.

(** The SFTP listing of [/home/user], names compared by code unit. *)
Lemma sftp_list_ordered_witness :
  StronglySorted (listed_before Scenarios.byCodeUnit)
    (sftp_list Scenarios.byCodeUnit (fun _ => "") (fun _ => "")
       "/home/user" Scenarios.homeUserSftp).
Proof.
  apply (sftp_list_ordered Scenarios.byCodeUnit (fun _ => "") (fun _ => "")
           byCodeUnit_total byCodeUnit_trans).
Defined.

(** The local listing of [/home/user]. *)
Lemma fs_list_names_witness :
  exists items,
    fs_list Scenarios.homeUser (Some "/home/user") = Items items /\
    map name items = ["zeta.txt"; "Alpha"; ".hidden"].
Proof.
  apply (fs_list_names Scenarios.homeUser (Some "/home/user")
           {| isDirectory := true; statSize := 4096;
              mtime := "2024-01-01T00:00:00.000Z" |}).
  - reflexivity.
  - reflexivity.
  - reflexivity.
  - repeat constructor; by eexists.
Defined.

End ListingExamples.

(** ** More on the file explorer and the transfer list *)

Module ExplorerProofs.
Import TransferContext FileExplorer ExplorerRuns FileExplorerProofs.
Open Scope list_scope.

(** The four ticks before the request of the started move ends. *)
Lemma reported_below_100_witness :
  Forall (fun p => forall q, p = Some q -> (q <= 95)%Q)
    (reported Examples.startedId (take 4 (Scenarios.ticks Examples.startedId))
       Examples.startedUi).
Proof.
  apply (reported_below_100 Examples.startedId).
  - reflexivity.
  - repeat constructor. intros _. vm_compute. discriminate.
Defined.

(** X19.  The only copy or move the explorer refuses by itself is a copy
    inside one FTP connection. *)
Theorem dispatch_refuses_only_ftp_copy src isSameConnection isMove :
  (exists message, dispatch src isSameConnection isMove = Throws message) <->
  connType src = FTP /\ isSameConnection = true /\ isMove = false.
Proof.
  unfold dispatch.
  destruct (connType src), isSameConnection, isMove; cbn; split;
    try (by intros [m [=]]); try (by intros (? & ? & ?)); try done.
  intros _. by eexists.
Qed.

(** *** Transfers that are not listed *)

Lemma map_unlisted (f : TransferInfo -> TransferInfo) i ts :
  ~ listed i ts ->
  map (fun t => if String.eqb (id t) i then f t else t) ts = ts.
Proof.
  unfold listed. induction ts as [|t ts IH]; cbn; [done |].
  intros H. rewrite Exists_cons in H.
  destruct (String.eqb (id t) i) eqn:E.
  - apply String.eqb_eq in E. tauto.
  - f_equal. apply IH. tauto.
Qed.

Lemma remove_unlisted i ts : ~ listed i ts -> removeTransfer i ts = ts.
Proof.
  unfold removeTransfer, listed. induction ts as [|t ts IH]; [done |].
  intros H. rewrite Exists_cons in H. rewrite filter_cons.
  destruct (decide _) as [_|Hn].
  - f_equal. apply IH. tauto.
  - destruct (String.eqb (id t) i) eqn:E; [| done].
    apply String.eqb_eq in E. tauto.
Qed.

(** X20.  An update, a failure, a completion or a removal for a transfer
    that is not listed leaves the list as it is: none of them lists a
    transfer. *)
Theorem unlisted_transfer_updates_nothing i ts p s e :
  ~ listed i ts ->
  updateTransferProgress i p ts = ts /\
  setTransferStatus i s ts = ts /\
  setTransferFailed i e ts = ts /\
  completeTransfer i ts = ts /\
  removeTransfer i ts = ts.
Proof.
  intros H. split_and!; try by apply (map_unlisted _ i ts H).
  by apply remove_unlisted.
Qed.

Lemma upload1_only i : i <> id Examples.upload1 -> ~ listed i [Examples.upload1].
Proof.
  intros Hi H. apply Exists_cons in H as [H|H]; [congruence |].
  by apply Exists_nil in H.
Qed.

Lemma unlisted_transfer_updates_nothing_witness :
  updateTransferProgress "transfer_2_b" 50%Q [Examples.upload1] = [Examples.upload1] /\
  completeTransfer "transfer_2_b" [Examples.upload1] = [Examples.upload1].
Proof.
  destruct (unlisted_transfer_updates_nothing "transfer_2_b" [Examples.upload1]
              50%Q "" "" (upload1_only "transfer_2_b" ltac:(discriminate)))
    as (H1 & _ & _ & H4 & _).
  split; [exact H1 | exact H4].
Defined.

Lemma remove_map f i ts :
  (forall t, id (f t) = id t) ->
  removeTransfer i (map (fun t => if String.eqb (id t) i then f t else t) ts)
  = removeTransfer i ts.
Proof.
  intros Hf. unfold removeTransfer. induction ts as [|t ts IH]; [done |].
  cbn [map]. rewrite !filter_cons, IH.
  destruct (String.eqb (id t) i) eqn:E.
  - rewrite Hf, E. by rewrite !decide_False by done.
  - rewrite E. done.
Qed.

(** X21.  Adding a transfer under an id that is not listed and removing it
    again gives the list back, also when the transfer was completed in
    between. *)
Theorem add_complete_remove i now t ts :
  ~ listed i ts ->
  removeTransfer i (addTransfer i now t ts) = ts /\
  removeTransfer i (completeTransfer i (addTransfer i now t ts)) = ts.
Proof.
  intros H.
  assert (removeTransfer i (addTransfer i now t ts) = ts) as Hr.
  { unfold removeTransfer, addTransfer. rewrite filter_app.
    fold (removeTransfer i ts). rewrite (remove_unlisted i ts H).
    rewrite filter_cons. cbn [update id]. rewrite String.eqb_refl.
    rewrite decide_False by done. by rewrite filter_nil, app_nil_r. }
  split; [done |].
  unfold completeTransfer. rewrite remove_map; [done | done].
Qed.

Lemma add_complete_remove_witness :
  removeTransfer "transfer_2_b"
    (completeTransfer "transfer_2_b"
       (addTransfer "transfer_2_b" 2 Examples.upload1 [Examples.upload1]))
  = [Examples.upload1].
Proof.
  apply (add_complete_remove "transfer_2_b" 2 Examples.upload1 [Examples.upload1]).
  apply upload1_only. discriminate.
Defined.

(** *** Ids of listed transfers *)

Lemma ids_map (f : TransferInfo -> TransferInfo) i ts :
  (forall t, id (f t) = id t) ->
  map id (map (fun t => if String.eqb (id t) i then f t else t) ts) = map id ts.
Proof.
  intros Hf. induction ts as [|t ts IH]; cbn; [done |].
  rewrite IH. by destruct (String.eqb (id t) i); rewrite ?Hf.
Qed.

Lemma ids_fire cb r ts : map id (fire cb r ts).2 = map id ts.
Proof.
  destruct cb as [i|i cur]; cbn [fire].
  - cbn [snd]. by apply ids_map.
  - destruct (Qle_bool 95 cur); cbn [snd]; [done |]. by apply ids_map.
Qed.

Lemma ids_remove i ts : map id (removeTransfer i ts) `sublist_of` map id ts.
Proof.
  unfold removeTransfer. induction ts as [|t ts IH]; [done |].
  rewrite filter_cons. destruct (decide _); cbn [map].
  - by apply sublist_skip.
  - by apply sublist_cons.
Qed.

Lemma ids_step e ui :
  map id (transfers (step e ui)) `sublist_of` map id (transfers ui).
Proof.
  destruct e as [h r|i [msg|]|i]; cbn [step].
  - unfold fire_handle. destruct (list_find _ _) as [[k [h' cb]]|]; [| done].
    pose proof (ids_fire cb r (transfers ui)) as Hf.
    destruct (fire cb r (transfers ui)) as [cb' ts]. cbn in Hf |- *.
    by rewrite Hf.
  - unfold on_error. cbn [transfers set_transfers].
    rewrite transfers_clear_registered.
    unfold setTransferFailed. by rewrite ids_map.
  - unfold on_success. cbn [transfers set_transfers].
    rewrite transfers_clear_registered.
    unfold completeTransfer. by rewrite ids_map.
  - cbn [transfers set_transfers]. apply ids_remove.
Qed.

(** X22.  Ticks, ends of requests and removals list no transfer and keep
    the order of the list: the ids listed after a run are ids listed
    before it, in the same order. *)
Theorem events_list_no_new_transfer events ui :
  map id (transfers (run events ui)) `sublist_of` map id (transfers ui).
Proof.
  unfold run. revert ui. induction events as [|e events IH]; intros ui; [done |].
  cbn [foldl]. etrans; [apply IH | apply ids_step].
Qed.

(** *** The interval whose handle is overwritten *)

Lemma kept_clear_registered h cb i ui :
  kept h cb ui -> kept h cb (clear_registered i ui).
Proof.
  intros [Hin Href]. unfold clear_registered.
  destruct (transferIntervalRef ui !! i) as [h'|] eqn:E; [| done].
  split; cbn.
  - apply list_elem_of_filter. split; [| done]. cbn. intros ->. by eapply Href.
  - intros k h'' [_ Hk]%lookup_delete_Some. by eapply Href.
Qed.

Lemma kept_step h i e ui :
  kept h (SimulatedProgress i) ui -> kept h (SimulatedProgress i) (step e ui).
Proof.
  intros Hk. destruct e as [h' r|i' [msg|]|i']; cbn [step].
  - destruct Hk as [Hin Href]. unfold fire_handle.
    destruct (list_find _ _) as [[k [h'' cb]]|] eqn:E; [| done].
    apply list_find_Some in E as (Hk & Hh & _). cbn in Hh. subst h''.
    destruct (fire cb r (transfers ui)) as [cb' ts] eqn:Ef.
    split; [| done]. cbn.
    apply list_elem_of_lookup in Hin as [j Hj].
    destruct (decide (j = k)) as [->|Hjk].
    + rewrite Hk in Hj. injection Hj as -> ->. cbn in Ef. injection Ef as <- _.
      apply list_elem_of_lookup. exists k.
      apply list_lookup_insert_eq. exact (lookup_lt_Some _ _ _ Hk).
    + apply list_elem_of_lookup. exists j. by rewrite list_lookup_insert_ne.
  - unfold on_error. exact (kept_clear_registered _ _ i' _ Hk).
  - unfold on_success. exact (kept_clear_registered _ _ i' _ Hk).
  - done.
Qed.

Lemma kept_run h i events ui :
  kept h (SimulatedProgress i) ui -> kept h (SimulatedProgress i) (run events ui).
Proof.
  unfold run. revert ui. induction events as [|e events IH]; intros ui Hk; [done |].
  cbn [foldl]. by apply IH, kept_step.
Qed.

Lemma kept_started toLowerCase now rnd sel ui i ui1 :
  fresh_handles ui ->
  handleConfirmAction toLowerCase now rnd sel ui = Running i ui1 ->
  kept (nextHandle ui) (SimulatedProgress i) ui1.
Proof.
  intros (_ & Hi & Hr). unfold handleConfirmAction.
  destruct (targetActionFile sel) as [target|]; [| done].
  destruct (destConnection sel) as [dest|]; [| done].
  destruct (activeConnection sel) as [active|]; [| done].
  destruct (_ && _)%bool; [done |].
  cbn [setInterval set_ref set_transfers transfers intervals nextHandle
       transferIntervalRef requests].
  set (tid := "transfer_" +:+ pretty now +:+ "_" +:+ rnd).
  assert (forall ts rq,
    kept (nextHandle ui) (SimulatedProgress tid)
      {| transfers := ts;
         intervals := (intervals ui ++ [(nextHandle ui, SimulatedProgress tid)])
                      ++ [(S (nextHandle ui), ProgressIncrement tid 0%Q)];
         nextHandle := S (S (nextHandle ui));
         transferIntervalRef :=
           <[tid := S (nextHandle ui)]>
             (<[tid := nextHandle ui]> (transferIntervalRef ui));
         requests := rq |}) as Hbase.
  { intros ts rq. split; cbn.
    - rewrite !elem_of_app, !list_elem_of_singleton. auto.
    - intros k h'. rewrite insert_insert_eq.
      intros [[_ <-]|[_ Hk]]%lookup_insert_Some; [lia |].
      apply Hr in Hk. lia. }
  destruct (dispatch _ _ _) as [st url|msg]; intros [= <- <-].
  - apply Hbase.
  - unfold on_error. cbn [set_transfers].
    split; [| apply (kept_clear_registered _ _ tid _ (Hbase _ _))].
    apply (kept_clear_registered _ _ tid _ (Hbase _ _)).
Qed.

(** X23.  The first of the two intervals [handleConfirmAction] starts is
    never cleared: its handle is overwritten in [transferIntervalRef] before
    anything can read it, so after any ticks, ends of requests and removals
    the interval is still live and no transfer is registered with its
    handle. *)
Theorem first_interval_is_never_cleared toLowerCase now rnd sel ui i ui1 events :
  fresh_handles ui ->
  handleConfirmAction toLowerCase now rnd sel ui = Running i ui1 ->
  (nextHandle ui, SimulatedProgress i) ∈ intervals (run events ui1) /\
  (forall k h, transferIntervalRef (run events ui1) !! k = Some h ->
               h <> nextHandle ui).
Proof.
  intros Hf Hs. by apply kept_run, (kept_started toLowerCase now rnd sel).
Qed.

Lemma fresh_handles_empty : fresh_handles empty_ui.
Proof.
  split_and!.
  - cbn. lia.
  - intros h cb H. by apply not_elem_of_nil in H.
  - intros k h H. cbn in H. by rewrite lookup_empty in H.
Qed.

(** The move of [report.pdf], through its ticks and the end of its
    request. *)
Lemma first_interval_witness :
  (1%nat, SimulatedProgress Examples.startedId)
    ∈ intervals (run (Scenarios.ticks Examples.startedId) Examples.startedUi).
Proof.
  refine (proj1 (first_interval_is_never_cleared JS.toLowerCase
                   1700000000000 "k3j9x2m1q"
                   (Scenarios.selection move) empty_ui Examples.startedId
                   Examples.startedUi (Scenarios.ticks Examples.startedId) _ _)).
  - exact fresh_handles_empty.
  - vm_compute; reflexivity.
Defined.

(** *** The question about an existing name *)

(** X24.  Run on a state of the component, [handleConfirmAction] asks the
    question about an existing item exactly when a file, a destination and
    an active connection are selected, the state holds no answer to that
    question, and the destination lists an item of the same type whose name
    is the name of the file once both are lower-cased. *)
Theorem conflict_modal_iff toLowerCase now rnd sel ui :
  (exists n, handleConfirmAction toLowerCase now rnd sel ui = ConflictModal n) <->
  conflictAction sel = None /\
  is_Some (destConnection sel) /\ is_Some (activeConnection sel) /\
  exists target f,
    targetActionFile sel = Some target /\ f ∈ destFiles sel /\
    toLowerCase (name f) = toLowerCase (name target) /\
    type f = type target.
Proof.
  unfold handleConfirmAction.
  destruct (targetActionFile sel) as [target|]; cycle 1.
  { split; [by intros [? [=]] | by intros (_ & _ & _ & ? & ? & [=] & _)]. }
  destruct (destConnection sel) as [dest|]; cycle 1.
  { split; [by intros [? [=]] | by intros (_ & [? [=]] & _)]. }
  destruct (activeConnection sel) as [active|]; cycle 1.
  { split; [by intros [? [=]] | by intros (_ & _ & [? [=]] & _)]. }
  destruct (conflictAction sel) as [a|] eqn:Ea.
  - rewrite bool_decide_true by done. rewrite andb_false_r.
    split; [| by intros [[=] _]].
    intros [n Hn]. revert Hn.
    cbn [setInterval]. by destruct (dispatch _ _ _).
  - rewrite bool_decide_false by (by intros [? [=]]). rewrite andb_true_r.
    destruct (existsb _ _) eqn:Ex.
    + split; [intros _ | by eexists].
      apply existsb_exists in Ex as (f & Hin & [Hn Ht]%andb_true_iff).
      split_and!; [done | done | done |].
      exists target, f.
      split_and!; [done | by apply list_elem_of_In | by apply String.eqb_eq |].
      by destruct (type f), (type target).
    + split.
      * intros [n Hn]. revert Hn. cbn [setInterval]. by destruct (dispatch _ _ _).
      * intros (_ & _ & _ & t & f & [= <-] & Hin & Hn & Ht).
        assert (existsb (fun f => String.eqb (toLowerCase (name f))
                                   (toLowerCase (name target))
                                  && type_eqb (type f) (type target))%bool
                  (destFiles sel) = true) as Ex'; [| congruence].
        apply existsb_exists. exists f. split; [by apply list_elem_of_In |].
        rewrite Hn, Ht, String.eqb_refl. by destruct (type target).
Qed.

End ExplorerProofs.

(** ** From the explorer to the transfer handler *)

Module CrossServerProofs.
Import Env Transfer TransferProofs FileExplorer ExplorerRuns Text TextProofs.
Open Scope list_scope.

Lemma kind_of_type t c :
  Transfer.connType c = Some (type_name t) ->
  supported c = match t with SFTP | FTP | S3 => true | _ => false end.
Proof.
  unfold supported, kind. intros ->. by destruct t.
Qed.

(** X25.  Every copy or move of an item on an SMB, NFS or Local connection
    is sent to the transfer handler, whatever the destination, and is
    answered there with an error before any call is made: 400 for a folder,
    and 500 with the message naming the kind for a file. *)
Theorem files_on_shares_cannot_be_moved src same isMove d n u req w :
  FileExplorer.connType src = SMB \/ FileExplorer.connType src = NFS \/
  FileExplorer.connType src = LOCAL ->
  Transfer.connType (srcConnection req) =
    Some (type_name (FileExplorer.connType src)) ->
  let out := transfer d n u req w in
  dispatch src same isMove =
    Fetches "Transferindo entre servidores..." "/api/fs/transfer" /\
  fst out =
    Val (if isDir req
         then Error 400 "Transferência de pastas entre servidores não é suportada ainda"
         else Error 500 ("Tipo de conexão origem não suportado: "
                         +:+ type_name (FileExplorer.connType src))) /\
  issued w (snd out) = [] /\
  remote (snd out) = remote w.
Proof.
  intros Ht Hc. cbv zeta. split.
  { unfold dispatch. by destruct Ht as [->|[->| ->]], same. }
  assert (supported (srcConnection req) = false) as Hs.
  { rewrite (kind_of_type _ _ Hc). by destruct Ht as [->|[->| ->]]. }
  destruct (isDir req) eqn:Hd.
  - unfold transfer. rewrite Hd. cbn. repeat split. unfold issued. by rewrite drop_all.
  - run_transfer Hd.
    1,2,3: destruct Ho1 as (l & data & Hloc & _);
           apply location_supported in Hloc; congruence.
    destruct (Ho1 Hs) as [-> ->]. rewrite Hc. cbn [JS.show].
    repeat split. unfold issued, cleaned; cbn. by rewrite drop_all.
Qed.

(** A copy of [report.pdf] from the share of the NAS to the bucket. *)
Lemma files_on_shares_witness :
  dispatch Examples.nasShare false false =
    Fetches "Transferindo entre servidores..." "/api/fs/transfer" /\
  fst (transfer "/srv/app" 1700000000000 "u1" Scenarios.fromNas Scenarios.world0) =
    Val (Error 500 "Tipo de conexão origem não suportado: SMB").
Proof.
  destruct (files_on_shares_cannot_be_moved Examples.nasShare false false
              "/srv/app" 1700000000000 "u1" Scenarios.fromNas Scenarios.world0
              (or_introl eq_refl) eq_refl) as (H1 & H2 & _).
  split; [exact H1 | exact H2].
Defined.

(** *** Keys of S3 objects *)

Lemma s3_key_slash s : s3_key (String "/" s) = s.
Proof. by destruct s. Qed.

Lemma s3_key_other c s : c <> "/"%char -> s3_key (String c s) = String c s.
Proof.
  intros Hc. unfold s3_key, JS.startsWith. cbn [String.prefix].
  by destruct (ascii_dec "/" c) as [<-|_].
Qed.

(** X26.  The key under which the transfer handler looks for a file of a
    bucket is the key the explorer uses for a copy or move inside the bucket
    exactly when the browsed path starts with a slash. *)
Theorem transfer_key_is_object_key savedPath fileName :
  s3_key (fullPath savedPath fileName) = objectKey savedPath fileName <->
  JS.startsWith "/" savedPath = true.
Proof.
  unfold fullPath, objectKey.
  destruct (String.eqb savedPath "/") eqn:E.
  { apply String.eqb_eq in E. subst. split; intros _; [reflexivity |].
    apply s3_key_slash. }
  destruct savedPath as [|c p].
  - change ("" +:+ "/" +:+ fileName) with (String "/" fileName).
    rewrite s3_key_slash. split; [| done].
    intros H. apply (f_equal String.length) in H. simpl in H.
    change ("" +:+ fileName) with fileName in H. lia.
  - change (String c p +:+ "/" +:+ fileName)
      with (String c (p +:+ "/" +:+ fileName)).
    unfold JS.startsWith. cbn [String.prefix JS.substring1].
    destruct (ascii_dec "/" c) as [<-|Hc].
    + rewrite s3_key_slash. split; [intros _; by destruct p | done].
    + rewrite s3_key_other by done. split; [| done].
      intros H. apply (f_equal String.length) in H. simpl in H.
      rewrite !length_append in H. simpl in H. lia.
Qed.

End CrossServerProofs.
